(** * Email-driven change automation: the approval-token issue lifecycle

    A shallow embedding of the workflow of [email-automation-test.py]
    (classification, token issuance, issue creation, approval mail,
    approval step) together with the token line of [demo-simulation.py].
    The account lookup and the repository naming of the first script and
    the keyword classifier and mail preview of the demo are embedded too;
    there the contact service and the reader of network locations are
    parameters.

    Conventions.
    - A Python [str] is kept as the bytes of its UTF-8 encoding ([string]);
      searching, splitting and comparing act on these bytes as they act on
      the characters.  [strip] removes every character for which
      [str.isspace] holds, inside and outside ASCII.  [lower] folds the
      letters A-Z and the two characters outside ASCII whose lower case
      holds an ASCII letter (U+212A and U+0130); the other characters
      outside ASCII lower-case to characters outside ASCII and are left as
      they are, which no comparison with an ASCII word can tell apart.
      [title] covers the ASCII letters only.
    - The services the scripts talk to (chat completion, issue tracker,
      mail) are an explicit [World]: the tracker's issues, the log of
      requests issued so far, and the oracles that decide what the outside
      answers (transport faults, the model's reply, the wall clock and the
      UTC time, the random source, the ranking of a search: the scripts
      send no [sort], so the order of the items is the tracker's).
    - A Python function with [try ... except Exception] becomes a
      computation in the monad [M] whose exception is caught by [try_catch];
      effects performed before the exception stay in the world. *)

From Stdlib Require Import ZArith Lia Bool List.
From Stdlib Require Import Strings.String Strings.Ascii Numbers.DecimalString.
From stdpp Require Import base list gmap strings.

Open Scope Z_scope.

(* ================================================================== *)
(** ** Text primitives *)
(* ================================================================== *)

Module Text.

(** The double-quote character, for the templates that contain it. *)
Definition dq : string := String "034"%char EmptyString.

(** A line feed: the templates are triple-quoted, multi-line literals. *)
Definition nl : string := String "010"%char EmptyString.

Definition code (c : ascii) : nat := nat_of_ascii c.

Definition is_digit (c : ascii) : bool :=
  (48 <=? code c)%nat && (code c <=? 57)%nat.

Definition is_upper (c : ascii) : bool :=
  (65 <=? code c)%nat && (code c <=? 90)%nat.

Definition is_lower (c : ascii) : bool :=
  (97 <=? code c)%nat && (code c <=? 122)%nat.

Definition is_cased (c : ascii) : bool := is_upper c || is_lower c.

(** [str.isspace] on the ASCII range: TAB..CR, FS..US and the space. *)
Definition is_space (c : ascii) : bool :=
  ((9 <=? code c)%nat && (code c <=? 13)%nat)
  || ((28 <=? code c)%nat && (code c <=? 32)%nat).

(** [str.isspace] on the characters of two bytes: U+0085 (C2 85) and
    U+00A0 (C2 A0). *)
Definition is_space2 (a b : ascii) : bool :=
  (code a =? 194)%nat && ((code b =? 133)%nat || (code b =? 160)%nat).

(** [str.isspace] on the characters of three bytes: U+1680 (E1 9A 80),
    U+2000..U+200A (E2 80 80..8A), U+2028, U+2029 and U+202F
    (E2 80 A8, A9, AF), U+205F (E2 81 9F) and U+3000 (E3 80 80).  No
    character of four bytes is white space. *)
Definition is_space3 (a b c : ascii) : bool :=
  ((code a =? 225)%nat && (code b =? 154)%nat && (code c =? 128)%nat)
  || ((code a =? 226)%nat && (code b =? 128)%nat
      && (((128 <=? code c)%nat && (code c <=? 138)%nat)
          || (code c =? 168)%nat || (code c =? 169)%nat || (code c =? 175)%nat))
  || ((code a =? 226)%nat && (code b =? 129)%nat && (code c =? 159)%nat)
  || ((code a =? 227)%nat && (code b =? 128)%nat && (code c =? 128)%nat).

Definition lower_char (c : ascii) : ascii :=
  if is_upper c then ascii_of_nat (code c + 32) else c.

Definition upper_char (c : ascii) : ascii :=
  if is_lower c then ascii_of_nat (code c - 32) else c.

(** U+212A KELVIN SIGN (E2 84 AA), whose lower case is [k]. *)
Definition is_kelvin (a b c : ascii) : bool :=
  (code a =? 226)%nat && (code b =? 132)%nat && (code c =? 170)%nat.

(** U+0130, capital I with dot above (C4 B0), whose lower case is [i]
    followed by U+0307, the combining dot above (CC 87). *)
Definition is_dotted_I (a b : ascii) : bool :=
  (code a =? 196)%nat && (code b =? 176)%nat.

Definition dot_above : string :=
  String (ascii_of_nat 204) (String (ascii_of_nat 135) EmptyString).

(** [s.lower()] *)
Fixpoint lower (s : string) : string :=
  match s with
  | EmptyString => EmptyString
  | String c s1 =>
      match s1 with
      | String c1 s2 =>
          if is_dotted_I c c1 then String "i" (dot_above +:+ lower s2)
          else
            match s2 with
            | String c2 s3 =>
                if is_kelvin c c1 c2 then String "k" (lower s3)
                else String (lower_char c) (lower s1)
            | EmptyString => String (lower_char c) (lower s1)
            end
      | EmptyString => String (lower_char c) EmptyString
      end
  end.

(** [s.title()] on ASCII letters: a cased character is upper-cased when
    the previous character is not cased and lower-cased otherwise. *)
Fixpoint title_from (prev_cased : bool) (s : string) : string :=
  match s with
  | EmptyString => EmptyString
  | String c s' =>
      String (if prev_cased then lower_char c else upper_char c)
             (title_from (is_cased c) s')
  end.

Definition title (s : string) : string := title_from false s.

(** [s.lstrip()]: white-space characters of one, two or three bytes are
    passed over at the front. *)
Fixpoint lstrip (s : string) : string :=
  match s with
  | EmptyString => EmptyString
  | String c s1 =>
      if is_space c then lstrip s1
      else
        match s1 with
        | String c1 s2 =>
            if is_space2 c c1 then lstrip s2
            else
              match s2 with
              | String c2 s3 => if is_space3 c c1 c2 then lstrip s3 else s
              | EmptyString => s
              end
        | EmptyString => s
        end
  end.

(** The text is made of white-space characters only. *)
Fixpoint all_space (s : string) : bool :=
  match s with
  | EmptyString => true
  | String c s1 =>
      if is_space c then all_space s1
      else
        match s1 with
        | String c1 s2 =>
            if is_space2 c c1 then all_space s2
            else
              match s2 with
              | String c2 s3 => is_space3 c c1 c2 && all_space s3
              | EmptyString => false
              end
        | EmptyString => false
        end
  end.

(** [s.rstrip()]: the longest end of [s] made of white space is cut off. *)
Fixpoint rstrip (s : string) : string :=
  match s with
  | EmptyString => EmptyString
  | String c s' => if all_space s then EmptyString else String c (rstrip s')
  end.

(** [s.strip()] *)
Definition strip (s : string) : string := rstrip (lstrip s).

Fixpoint skip (n : nat) (s : string) : string :=
  match n, s with
  | O, _ => s
  | S n', String _ s' => skip n' s'
  | S _, EmptyString => EmptyString
  end.

(** [needle in hay] *)
Fixpoint contains (hay needle : string) : bool :=
  String.prefix needle hay
  || match hay with
     | EmptyString => false
     | String _ hay' => contains hay' needle
     end.

(** The cut of [s] at the first occurrence of [sep]. *)
Fixpoint cut (sep s : string) : option (string * string) :=
  if String.prefix sep s then Some (EmptyString, skip (String.length sep) s)
  else match s with
       | EmptyString => None
       | String c s' =>
           match cut sep s' with
           | Some (a, b) => Some (String c a, b)
           | None => None
           end
       end.

(** [s.split(sep, 1)] for a non-empty [sep]. *)
Definition split1 (sep s : string) : list string :=
  match cut sep s with
  | Some (a, b) => [a; b]
  | None => [s]
  end.

(** [str(n)] / [f"{n}"] for an [int]. *)
Definition str_int (n : Z) : string := NilZero.string_of_int (Z.to_int n).

Fixpoint zeros (n : nat) : string :=
  match n with
  | O => EmptyString
  | S n' => String "0"%char (zeros n')
  end.

(** Zero padding on the left up to [width] characters, as the [%02d]
    style fields of [strftime] and the [:04d] format do for [n >= 0]. *)
Definition zero_pad (width : nat) (n : Z) : string :=
  let s := str_int n in zeros (width - String.length s) +:+ s.

Fixpoint all_digits (s : string) : bool :=
  match s with
  | EmptyString => true
  | String c s' => is_digit c && all_digits s'
  end.

(** The number a string of decimal digits reads as. *)
Fixpoint digits_value_from (acc : Z) (s : string) : Z :=
  match s with
  | EmptyString => acc
  | String c s' => digits_value_from (acc * 10 + (Z.of_nat (code c) - 48)) s'
  end.

Definition digits_value (s : string) : Z := digits_value_from 0 s.



(** A bounded universal check, used to settle facts about the decimal
    rendering of small ranges by evaluation. *)
Fixpoint forall_from (f : Z -> bool) (lo : Z) (n : nat) : bool :=
  match n with
  | O => true
  | S k => f lo && forall_from f (lo + 1) k
  end.

End Text.

Import Text.

(* ================================================================== *)
(** ** Wall clock *)
(* ================================================================== *)

(** What [datetime.now()] returns, down to the second: the reading of the
    wall clock of the machine, in the zone the machine keeps (a naive
    local time, with no zone attached). *)
Record DateTime := mkDateTime {
  year : Z; month : Z; day : Z; hour : Z; minute : Z; second : Z
}.

(** The ranges a [datetime] object guarantees for its fields. *)
Definition valid_datetime (d : DateTime) : Prop :=
  1 <= year d <= 9999 /\ 1 <= month d <= 12 /\ 1 <= day d <= 31 /\
  0 <= hour d <= 23 /\ 0 <= minute d <= 59 /\ 0 <= second d <= 59.




(** [d.strftime("%Y%m%d%H%M%S")]: the year on four digits, the other
    fields on two, all padded with zeros. *)
Definition strftime_compact (d : DateTime) : string :=
  zero_pad 4 (year d) +:+ zero_pad 2 (month d) +:+ zero_pad 2 (day d) +:+
  zero_pad 2 (hour d) +:+ zero_pad 2 (minute d) +:+ zero_pad 2 (second d).

(** [d.strftime('%Y-%m-%d %H:%M:%S')] *)
Definition strftime_long (d : DateTime) : string :=
  zero_pad 4 (year d) +:+ "-" +:+ zero_pad 2 (month d) +:+ "-" +:+
  zero_pad 2 (day d) +:+ " " +:+ zero_pad 2 (hour d) +:+ ":" +:+
  zero_pad 2 (minute d) +:+ ":" +:+ zero_pad 2 (second d).

(* ================================================================== *)
(** ** The outside world: tracker, requests, oracles *)
(* ================================================================== *)

(** The keys of [local.settings.json] the workflow reads. *)
Record Config := mkConfig {
  OPENAI_API_KEY : string;
  OPENAI_MODEL : string;
  GITHUB_TOKEN : string;
  GITHUB_ORG : string;
  SENDGRID_API_KEY : string;
  EMAIL_FROM : string
}.

(** An issue as the tracker holds it. *)
Record Issue := mkIssue {
  i_org : string;
  i_repo : string;
  i_number : Z;
  i_id : Z;
  i_title : string;
  i_body : string;
  i_labels : list string;
  i_open : bool;
  i_comments : list string
}.

#[global] Instance Issue_eq_dec : EqDecision Issue.
Proof. solve_decision. Defined.

Definition html_url (i : Issue) : string :=
  "https://github.com/" +:+ i_org i +:+ "/" +:+ i_repo i +:+ "/issues/" +:+
  str_int (i_number i).

(** The requests the workflow issues.  Each constructor keeps the parts of
    the URL and of the JSON payload that vary; the credentials of the
    headers and the constant payload fields are left out.
    - [ChatCompletion]: POST api.openai.com/v1/chat/completions
    - [CreateIssue]: POST api.github.com/repos/ORG/REPO/issues
    - [SearchIssues]: GET api.github.com/search/issues
        ?q=repo:ORG/REPO+TERM+in:body+state:open
      ([in_body] and [state_open] are the two qualifiers)
    - [UpdateIssue]: PATCH api.github.com/repos/ORG/REPO/issues/N
    - [CreateComment]: POST api.github.com/repos/ORG/REPO/issues/N/comments
    - [MailSend]: POST api.sendgrid.com/v3/mail/send *)
Inductive Request :=
| ChatCompletion (model prompt : string)
| CreateIssue (org repo title body : string) (labels : list string)
| SearchIssues (org repo term : string) (in_body state_open : bool)
| UpdateIssue (org repo : string) (number : Z) (labels : list string)
| CreateComment (org repo : string) (number : Z) (body : string)
| MailSend (to from subject text_plain text_html : string)
           (click_tracking open_tracking : bool).

(** The decoded JSON of a 2xx answer. *)
Inductive Response :=
| ChatReply (content : string)
| IssueJson (i : Issue)
| SearchJson (total_count : Z) (items : list Issue)
| Accepted.

Record World := mkWorld {
  issues : list Issue;
  (** requests issued so far, oldest first, with [true] for a 2xx answer *)
  log : list (Request * bool);
  (** [fault n = Some msg]: the [n]-th request raises with message [msg] *)
  fault : nat -> option string;
  (** the reply of the chat model to a prompt *)
  llm : string -> string;
  (** successive readings of the wall clock *)
  clock : nat -> DateTime;
  ticks : nat;
  (** successive outputs of the random source *)
  entropy : nat -> Z;
  draws : nat;
  (** the UTC time at the successive readings of the wall clock; the
      scripts never ask for it *)
  utc : nat -> DateTime;
  (** the score the tracker's search gives an issue for a term: a search
      without [sort] lists the best matches first *)
  relevance : string -> Issue -> Z
}.

Definition set_issues (l : list Issue) (w : World) : World :=
  mkWorld l (log w) (fault w) (llm w) (clock w) (ticks w) (entropy w) (draws w)
          (utc w) (relevance w).

Definition record (e : Request * bool) (w : World) : World :=
  mkWorld (issues w) (log w ++ [e]) (fault w) (llm w) (clock w) (ticks w)
          (entropy w) (draws w) (utc w) (relevance w).

Definition tick (w : World) : World :=
  mkWorld (issues w) (log w) (fault w) (llm w) (clock w) (S (ticks w))
          (entropy w) (draws w) (utc w) (relevance w).

Definition draw (w : World) : World :=
  mkWorld (issues w) (log w) (fault w) (llm w) (clock w) (ticks w)
          (entropy w) (S (draws w)) (utc w) (relevance w).

(** *** The tracker's side *)

Definition same_issue (org repo : string) (n : Z) (i : Issue) : bool :=
  String.eqb (i_org i) org && String.eqb (i_repo i) repo && (i_number i =? n).

Definition in_repo (org repo : string) (i : Issue) : bool :=
  String.eqb (i_org i) org && String.eqb (i_repo i) repo.

Definition find_issue (org repo : string) (n : Z) (l : list Issue) : option Issue :=
  List.find (same_issue org repo n) l.

Definition next_number (org repo : string) (l : list Issue) : Z :=
  1 + fold_right Z.max 0 (List.map i_number (List.filter (in_repo org repo) l)).

(** A search hit: in the repository, the term in the body (or, without the
    [in:body] qualifier, in the title or the body), and open when the
    [state:open] qualifier is present. *)
Definition hit (org repo term : string) (in_body state_open : bool) (i : Issue) : bool :=
  in_repo org repo i
  && (contains (i_body i) term || (negb in_body && contains (i_title i) term))
  && (i_open i || negb state_open).

(** The order of a search result: best match first, issues of equal score
    in the order of the tracker. *)
Fixpoint rank_insert (score : Issue -> Z) (i : Issue) (l : list Issue) : list Issue :=
  match l with
  | [] => [i]
  | j :: l' => if score j <=? score i then i :: l else j :: rank_insert score i l'
  end.

Definition ranked (score : Issue -> Z) (l : list Issue) : list Issue :=
  fold_right (rank_insert score) [] l.

(** The items of a search: the hits, ranked by the score of the term. *)
Definition search_items (org repo term : string) (in_body state_open : bool)
    (score : string -> Issue -> Z) (l : list Issue) : list Issue :=
  ranked (score term) (List.filter (hit org repo term in_body state_open) l).

Definition set_labels (labels : list string) (i : Issue) : Issue :=
  mkIssue (i_org i) (i_repo i) (i_number i) (i_id i) (i_title i) (i_body i)
          labels (i_open i) (i_comments i).

Definition add_comment (body : string) (i : Issue) : Issue :=
  mkIssue (i_org i) (i_repo i) (i_number i) (i_id i) (i_title i) (i_body i)
          (i_labels i) (i_open i) (i_comments i ++ [body]).

Definition update_issue (org repo : string) (n : Z) (f : Issue -> Issue)
    (l : list Issue) : list Issue :=
  List.map (fun i => if same_issue org repo n i then f i else i) l.

(** What the services answer to a request that reached them: the response
    and the tracker's new content, or [None] for a 404. *)
Definition serve (r : Request) (w : World) : option (Response * list Issue) :=
  match r with
  | ChatCompletion _ prompt => Some (ChatReply (llm w prompt), issues w)
  | CreateIssue org repo title body labels =>
      let i := mkIssue org repo (next_number org repo (issues w))
                       (1 + Z.of_nat (length (issues w))) title body labels true [] in
      Some (IssueJson i, issues w ++ [i])
  | SearchIssues org repo term in_body state_open =>
      let items := search_items org repo term in_body state_open (relevance w)
                                (issues w) in
      Some (SearchJson (Z.of_nat (length items)) items, issues w)
  | UpdateIssue org repo n labels =>
      match find_issue org repo n (issues w) with
      | Some i => Some (IssueJson (set_labels labels i),
                        update_issue org repo n (set_labels labels) (issues w))
      | None => None
      end
  | CreateComment org repo n body =>
      match find_issue org repo n (issues w) with
      | Some _ => Some (Accepted, update_issue org repo n (add_comment body) (issues w))
      | None => None
      end
  | MailSend _ _ _ _ _ _ _ => Some (Accepted, issues w)
  end.

(* ================================================================== *)
(** ** The monad of the scripts *)
(* ================================================================== *)

(** A computation runs in a world and ends with a value or with a raised
    exception (its message), in a new world. *)
Definition M (A : Type) : Type := World -> (string + A) * World.

Definition ret {A} (a : A) : M A := fun w => (inr a, w).

Definition raise {A} (msg : string) : M A := fun w => (inl msg, w).

Definition bind {A B} (m : M A) (k : A -> M B) : M B :=
  fun w => match m w with
           | (inr a, w') => k a w'
           | (inl e, w') => (inl e, w')
           end.

(** [try: m  except Exception as e: h e] *)
Definition try_catch {A} (m : M A) (h : string -> M A) : M A :=
  fun w => match m w with
           | (inr a, w') => (inr a, w')
           | (inl e, w') => h e w'
           end.

Notation "'do' x <- m ;; k" := (bind m (fun x => k))
  (at level 10, x name, m at level 99, k at level 200).

Definition not_found_msg : string := "404 Client Error: Not Found".

(** [requests.<verb>(...)] followed by [response.raise_for_status()] and
    [response.json()]. *)
Definition http (r : Request) : M Response :=
  fun w =>
    match fault w (length (log w)) with
    | Some msg => (inl msg, record (r, false) w)
    | None =>
        match serve r w with
        | Some (resp, l) => (inr resp, set_issues l (record (r, true) w))
        | None => (inl not_found_msg, record (r, false) w)
        end
    end.

(** [datetime.now()] *)
Definition now : M DateTime := fun w => (inr (clock w (ticks w)), tick w).

(** [random.randint(a, b)]: an integer [n] with [a <= n <= b]. *)
Definition randint (a b : Z) : M Z :=
  fun w => (inr (a + entropy w (draws w) mod (b - a + 1)), draw w).

(* ================================================================== *)
(** ** email-automation-test.py *)
(* ================================================================== *)

(** [classify_email_content]: the prompt sent to the chat model. *)
Definition classification_prompt (email_content : string) : string :=
  "Analyze this email content and determine if it's a bug report or feature request for a website change. " +:+ nl +:+ "
Rules:
- If it describes something broken, not working, or an error: respond with " +:+ dq +:+ "bug" +:+ dq +:+ "
- If it requests new functionality or changes: respond with " +:+ dq +:+ "feature" +:+ dq +:+ "  " +:+ nl +:+
  "- If it's neither: respond with " +:+ dq +:+ "neither" +:+ dq +:+ "

For bug or feature, provide a clear, concise summary in this format:
[TYPE]: [SUMMARY]
" +:+ nl +:+ "Examples:
- bug: Contact page returns 404 error when refreshed
- feature: Add dark mode toggle to navigation menu
- neither

Email content: " +:+ dq +:+ email_content +:+ dq +:+ "
".

(** [classify_email_content(config, email_content)]: the stripped reply
    of the model, or ["neither"] when anything in the call raises. *)
Definition classify_email_content (config : Config) (email_content : string) : M string :=
  try_catch
    (do response <- http (ChatCompletion (OPENAI_MODEL config)
                                         (classification_prompt email_content)) ;;
     match response with
     | ChatReply content => ret (strip content)
     | _ => raise "KeyError: 'choices'"
     end)
    (fun _ => ret "neither").

(** [generate_approval_token()] *)
Definition generate_approval_token : M string :=
  do d <- now ;;
  let timestamp := strftime_compact d in
  do random_num <- randint 1000 9999 ;;
  ret ("APPR-" +:+ timestamp +:+ "-" +:+ str_int random_num).

(** The labels [create_github_issue] puts on a new issue. *)
Definition issue_labels (issue_type : string) : list string :=
  let labels := ["amazon-q"; "client-request"; "auto-generated"] in
  if String.eqb (lower issue_type) "bug" then labels ++ ["bug"]
  else if String.eqb (lower issue_type) "feature" then labels ++ ["enhancement"]
  else labels.

Definition ai_instructions (issue_type : string) : string :=
  if String.eqb (lower issue_type) "bug"
  then "Fix the described issue in the website code. Identify the root cause and implement a solution."
  else "Implement the requested feature. Follow best practices and ensure the implementation is user-friendly.".

(** The body template of [create_github_issue]. *)
Definition issue_body (issue_type description website_url account_id
                       approval_token current_time : string) : string :=
  "## " +:+ title issue_type +:+ " Report

**Description:** " +:+ description +:+ "

**Website:** " +:+ website_url +:+ "
**Account ID:** " +:+ account_id +:+ "
**Approval Token:** " +:+ approval_token +:+ "
**Status:** Pending Client Approval

## AI Instructions
" +:+ ai_instructions issue_type +:+ "

## Next Steps
- [ ] Client approval received
- [ ] Code analysis completed  " +:+ nl +:+
  "- [ ] Solution implemented
- [ ] Testing completed
- [ ] Deployed to production

---
*This issue was created automatically from a client email request.*
*Generated on: " +:+ current_time +:+ "*
".

Record IssueRef := mkIssueRef { Number : Z; Url : string; Id : Z }.

(** [create_github_issue(config, issue_type, title, description,
    repository, website_url, account_id, approval_token)]: the reference
    of the new issue, or [None] when the request raises. *)
Definition create_github_issue (config : Config)
    (issue_type title description repository website_url account_id
     approval_token : string) : M (option IssueRef) :=
  let labels := issue_labels issue_type in
  do t <- now ;;
  let current_time := strftime_long t +:+ " UTC" in
  let body := issue_body issue_type description website_url account_id
                         approval_token current_time in
  try_catch
    (do response <- http (CreateIssue (GITHUB_ORG config) repository title body labels) ;;
     match response with
     | IssueJson issue =>
         ret (Some (mkIssueRef (i_number issue) (html_url issue) (i_id issue)))
     | _ => raise "KeyError: 'number'"
     end)
    (fun _ => ret None).

(** The two representations built by [send_confirmation_email]. *)
Definition html_content (content_summary approve_link reject_link
                         approval_token current_time : string) : string :=
  "<!DOCTYPE html>
<html>
<head>
    <style>
        body { font-family: Arial, sans-serif; line-height: 1.6; color: #333; }
        .container { max-width: 600px; margin: 0 auto; padding: 20px; }
        .header { background-color: #007bff; color: white; padding: 20px; border-radius: 5px; margin-bottom: 20px; }
        .content { background-color: #f8f9fa; padding: 20px; border-radius: 5px; margin-bottom: 20px; }
        .buttons { margin: 20px 0; text-align: center; }
        .button { display: inline-block; padding: 15px 30px; color: white; text-decoration: none; border-radius: 5px; margin: 0 10px; font-weight: bold; }
        .approve { background-color: #28a745; }
        .reject { background-color: #dc3545; }
        .footer { margin-top: 30px; padding-top: 20px; border-top: 1px solid #ddd; font-size: 12px; color: #666; }
    </style>
</head>
<body>
    <div class=" +:+ dq +:+ "container" +:+ dq +:+ ">
        <div class=" +:+ dq +:+ "header" +:+ dq +:+ ">
            <h2>🔍 Confirm Your Website Change Request</h2>
        </div>
        <div class=" +:+ dq +:+ "content" +:+ dq +:+ ">
            <p>Dear Client,</p>
            <p>We've analyzed your email and interpreted it as the following:</p>
            <p><strong>Summary:</strong> " +:+ content_summary +:+ "</p>
            " +:+ nl +:+
  "            <p>To proceed with this change, please click one of the links below:</p>
            " +:+ nl +:+
  "            <div class=" +:+ dq +:+ "buttons" +:+ dq +:+ ">
                <a href=" +:+ dq +:+ approve_link +:+ dq +:+ " class=" +:+ dq +:+ "button approve" +:+ dq +:+ ">[APPROVE ✅]</a>
                <a href=" +:+ dq +:+ reject_link +:+ dq +:+ " class=" +:+ dq +:+ "button reject" +:+ dq +:+ ">[REJECT ❌]</a>
            </div>
            " +:+ nl +:+
  "            <p><strong>Approval Token:</strong> " +:+ approval_token +:+ "</p>
            " +:+ nl +:+
  "            <p>If you have any questions or need to provide additional details, please reply to this email.</p>
            " +:+ nl +:+
  "            <p>Best regards,<br>Your Website Automation Team</p>
        </div>
        <div class=" +:+ dq +:+ "footer" +:+ dq +:+ ">
            <p>This email was automatically generated by the email automation system.</p>
            <p>Generated on: " +:+ current_time +:+ "</p>
        </div>
    </div>
</body>
</html>".

Definition text_content (content_summary approve_link reject_link
                         approval_token current_time : string) : string :=
  "Confirm Your Website Change Request

Dear Client,

We've analyzed your email and interpreted it as the following:
Summary: " +:+ content_summary +:+ "

To proceed with this change, please click one of the links below:

[APPROVE ✅] " +:+ approve_link +:+ "

[REJECT ❌] " +:+ reject_link +:+ "

Approval Token: " +:+ approval_token +:+ "

If you have any questions or need to provide additional details, please reply to this email.

Best regards,
Your Website Automation Team

---
This email was automatically generated by the email automation system.
Generated on: " +:+ current_time +:+ "
".

(** The message [send_confirmation_email] posts to the mail service. *)
Definition confirmation_mail (config : Config)
    (client_email content_summary approve_link reject_link approval_token
     current_time : string) : Request :=
  MailSend client_email (EMAIL_FROM config)
    ("Confirm Your Website Change Request - Token: " +:+ approval_token)
    (text_content content_summary approve_link reject_link approval_token current_time)
    (html_content content_summary approve_link reject_link approval_token current_time)
    false false.

(** [send_confirmation_email(config, client_email, content_summary,
    approve_link, reject_link, approval_token)] *)
Definition send_confirmation_email (config : Config)
    (client_email content_summary approve_link reject_link
     approval_token : string) : M bool :=
  do t <- now ;;
  let current_time := strftime_long t +:+ " UTC" in
  try_catch
    (do _ <- http (confirmation_mail config client_email content_summary
                 approve_link reject_link approval_token current_time) ;;
     ret true)
    (fun _ => ret false).

(** The label list of the approval update (lines 352-354). *)
Definition approved_labels : list string :=
  ["amazon-q"; "approved"; "amazon-q-ready"; "help-wanted"; "good-first-issue"].

(** The comment that mentions the agent (lines 361-388). *)
Definition comment_body (approval_token repository processed_at : string) : string :=
  "✅ **Client Approval Received - SIMULATED FOR TESTING**

@amazon-q please help with this issue.

## Problem Summary
This issue has been approved by the client and is ready for AI implementation.

## Expected Solution
Please analyze the issue description and implement the appropriate solution.

## Technical Details
- This is an automated request from the email automation system
- Client approval token: " +:+ approval_token +:+ "
- Repository: " +:+ repository +:+ "

Please implement a solution and create a pull request.

Next steps:
- [x] Client approval received
- [ ] Code analysis completed  " +:+ nl +:+
  "- [ ] Solution implemented
- [ ] Testing completed
- [ ] Deployed to production

---
*Approval processed automatically at " +:+ processed_at +:+ " UTC*".

Inductive ApprovalResult :=
| ApprovalOk (issue_number : Z) (issue_url : string)
| ApprovalFailed (error : string).

(** The search of the approval step (lines 339-343): the decoded result of
    the query [repo:ORG/REPO+TOKEN+in:body+state:open]. *)
Definition find_issue_by_token (config : Config) (approval_token repository : string)
    : M (Z * list Issue) :=
  do response <- http (SearchIssues (GITHUB_ORG config) repository approval_token
                                    true true) ;;
  match response with
  | SearchJson total_count items => ret (total_count, items)
  | _ => raise "KeyError: 'total_count'"
  end.

(** The label update of the approval step (lines 351-358). *)
Definition advance_to_approved (config : Config) (repository : string)
    (issue_number : Z) : M unit :=
  do _ <- http (UpdateIssue (GITHUB_ORG config) repository issue_number
                            approved_labels) ;;
  ret tt.

(** The agent-trigger comment of the approval step (lines 360-392). *)
Definition post_agent_trigger_comment (config : Config)
    (approval_token repository : string) (issue_number : Z) : M unit :=
  do t <- now ;;
  do _ <- http (CreateComment (GITHUB_ORG config) repository issue_number
                  (comment_body approval_token repository (strftime_long t))) ;;
  ret tt.

(** [simulate_approval_and_trigger_amazon_q(config, approval_token,
    repository)] *)
Definition simulate_approval_and_trigger_amazon_q (config : Config)
    (approval_token repository : string) : M ApprovalResult :=
  try_catch
    (do search_result <- find_issue_by_token config approval_token repository ;;
     let (total_count, items) := search_result in
     if 0 <? total_count then
       match items !! 0%nat with
       | Some issue =>
           let issue_number := i_number issue in
           do _ <- advance_to_approved config repository issue_number ;;
           do _ <- post_agent_trigger_comment config approval_token repository
                                              issue_number ;;
           ret (ApprovalOk issue_number (html_url issue))
       | None => raise "list index out of range"
       end
     else ret (ApprovalFailed "Issue not found"))
    (fun e => ret (ApprovalFailed e)).

(** The [test_data] dictionary of [main]. *)
Record TestData := mkTestData {
  client_email : string;
  email_title : string;
  email_body : string;
  email_content : string
}.

Definition test_data : TestData :=
  mkTestData "john@datan8.com" "Bug in website"
    "Hi when I refresh the contact page it gives me a 404"
    "Bug in website: Hi when I refresh the contact page it gives me a 404".

(** Where a run of the workflow stops. *)
Inductive Outcome :=
| Skipped                       (* "Skipping non-relevant case" *)
| InvalidFormat                 (* "Invalid classification format" *)
| IssueFailed                   (* "Failed to create GitHub issue" *)
| EmailFailed                   (* "Failed to send confirmation email" *)
| Completed (issue : IssueRef) (approval_token : string)
            (approval_result : ApprovalResult).

(** The workflow of [main] on one email; [main] itself runs it on
    [test_data].  The pause before the approval step is not modelled. *)
Definition process (config : Config) (td : TestData) : M Outcome :=
  (* Step 1 *)
  do classification <- classify_email_content config (email_content td) ;;
  if String.eqb classification "neither" then ret Skipped
  else
    let parts := split1 ": " classification in
    match parts with
    | p0 :: p1 :: _ =>
        let issue_type := strip p0 in
        let summary := strip p1 in
        (* Steps 2 and 3 *)
        let account_id := "test-account-001" in
        let website_url := "https://example.com" in
        let repository := "sa-template" in
        (* Step 4 *)
        do approval_token <- generate_approval_token ;;
        (* Step 5 *)
        do issue <- create_github_issue config issue_type summary (email_content td)
                      repository website_url account_id approval_token ;;
        match issue with
        | None => ret IssueFailed
        | Some issue =>
            (* Step 6 *)
            let approval_base_url := "https://yourfunction.azurewebsites.net" in
            let approve_link := approval_base_url +:+ "/approve?token=" +:+
                                approval_token +:+ "&repo=" +:+ repository in
            let reject_link := approval_base_url +:+ "/reject?token=" +:+
                               approval_token +:+ "&repo=" +:+ repository in
            (* Step 7 *)
            do email_sent <- send_confirmation_email config (client_email td) summary
                               approve_link reject_link approval_token ;;
            if email_sent then
              (* Step 8 *)
              do approval_result <- simulate_approval_and_trigger_amazon_q
                                      config approval_token repository ;;
              ret (Completed issue approval_token approval_result)
            else ret EmailFailed
        end
    | _ => ret InvalidFormat
    end.

Definition main (config : Config) : M Outcome := process config test_data.

(* ================================================================== *)
(** ** demo-simulation.py *)
(* ================================================================== *)

Module DemoSimulation.

Record IssueData := mkIssueData {
  d_title : string; d_body : string; d_labels : list string
}.

Record Created := mkCreated {
  issue_number : Z;
  issue_url : string;
  approval_token : string;
  issue_data : IssueData
}.

Section Hash.

(** The built-in [hash] on strings, fixed for the life of a process. *)
Variable hash : string -> Z.

(** [create_github_issue(config, issue_type, title, description,
    repo_name)]: nothing is sent; the token is made inline. *)
Definition create_github_issue (config : Config)
    (issue_type title description repo_name : string) : M Created :=
  do d <- now ;;
  let timestamp := strftime_compact d in
  let token := "APPR-" +:+ timestamp +:+ "-" +:+ zero_pad 4 (hash title mod 10000) in
  do g <- now ;;
  let body :=
    "## " +:+ Text.title issue_type +:+ " Report

**Description:** " +:+ description +:+ "

**Website:** https://example.com
**Account ID:** demo-client-001  " +:+ nl +:+
    "**Approval Token:** " +:+ token +:+ "
**Status:** Pending Client Approval

## AI Instructions
" +:+ (if String.eqb issue_type "bug"
       then "Fix the described issue in the website code. Identify the root cause and implement a solution."
       else "Implement the requested feature following best practices and existing code patterns.") +:+ "

## Next Steps
- [ ] Client approval received
- [ ] Code analysis completed  " +:+ nl +:+
    "- [ ] Solution implemented
- [ ] Testing completed
- [ ] Deployed to production

---
*This issue was created automatically from a client email request.*
*Generated on: " +:+ strftime_long g +:+ " UTC*" in
  ret (mkCreated 42
         ("https://github.com/" +:+ GITHUB_ORG config +:+ "/" +:+ repo_name +:+ "/issues/42")
         token
         (mkIssueData title body
            ["amazon-q"; "client-request"; "auto-generated"; issue_type])).

End Hash.

(** [classify_email(content)]: the keyword classifier of the demo (the
    pause is not modelled). *)
Definition classify_email (content : string) : string * string :=
  if contains (lower content) "404" || contains (lower content) "not found"
     || contains (lower content) "broken"
  then ("bug", "Page not found error - needs routing fix")
  else if contains (lower content) "add" || contains (lower content) "new"
          || contains (lower content) "feature"
  then ("enhancement", "New feature request from client")
  else ("bug", "General website issue reported by client").

(** [config.get('APPROVAL_BASE_URL', 'https://yourfunction.azurewebsites.net')] *)
Definition approval_base (approval_base_url : option string) : string :=
  match approval_base_url with
  | Some u => u
  | None => "https://yourfunction.azurewebsites.net"
  end.

(** The preview text of [send_approval_email]; [approval_base_url] is the
    setting [APPROVAL_BASE_URL], when present. *)
Definition email_preview (approval_base_url : option string)
    (issue_summary token repo_name : string) : string :=
  "
Subject: Confirm Your Website Change Request - Token: " +:+ token +:+ "

Dear Client,

We've analyzed your email and interpreted it as the following:
Summary: " +:+ issue_summary +:+ "

To proceed with this change, please click one of the links below:

[APPROVE ✅] " +:+ approval_base approval_base_url +:+ "/approve?token=" +:+ token +:+ "&repo=" +:+ repo_name +:+ "

[REJECT ❌] " +:+ approval_base approval_base_url +:+ "/reject?token=" +:+ token +:+ "&repo=" +:+ repo_name +:+ "

Best regards,
Your Website Automation Team
    ".

(** [send_approval_email(config, client_email, issue_summary, token,
    repo_name)]: nothing is sent; the preview is printed. *)
Definition send_approval_email (approval_base_url : option string)
    (client_email issue_summary token repo_name : string) : M (bool * string) :=
  ret (true, email_preview approval_base_url issue_summary token repo_name).

End DemoSimulation.

(* ================================================================== *)
(** ** Observations on tokens, trackers and logs *)
(* ================================================================== *)


(** The timestamp and the suffix embedded in a token. *)
Definition token_timestamp (t : string) : string := substring 5 14 t.
Definition token_suffix (t : string) : string := skip 20 t.

(** The text of a token for a clock reading and a suffix (the last line
    of [generate_approval_token]). *)
Definition token_text (d : DateTime) (suffix : string) : string :=
  "APPR-" +:+ strftime_compact d +:+ "-" +:+ suffix.

(** The number the compact timestamp of a reading spells. *)
Definition stamp (d : DateTime) : Z :=
  ((((year d * 100 + month d) * 100 + day d) * 100 + hour d) * 100 + minute d) * 100
  + second d.

(** Checks used to settle the decimal rendering of small ranges. *)
Definition pad_ok (width : nat) (n : Z) : bool :=
  let s := zero_pad width n in
  (String.length s =? width)%nat && all_digits s && (digits_value s =? n).

Definition str_is_pad4 (n : Z) : bool := String.eqb (str_int n) (zero_pad 4 n).

(** The open issues of a repository whose body holds the token, in the
    order in which the search of the tracker lists them. *)
Definition open_matches (org repo token : string) (w : World) : list Issue :=
  search_items org repo token true true (relevance w) (issues w).

(** The label set of an issue. *)
Definition label_set (i : Issue) : gset string := list_to_set (i_labels i).

Definition is_comment (r : Request) : bool :=
  match r with CreateComment _ _ _ _ => true | _ => false end.

Definition is_update (r : Request) : bool :=
  match r with UpdateIssue _ _ _ _ => true | _ => false end.

(** Requests that create or change something outside the classifier. *)
Definition is_side_effect (r : Request) : bool :=
  match r with ChatCompletion _ _ => false | _ => true end.

(** The requests issued between an earlier world and a later one. *)
Definition issued (w w' : World) : list (Request * bool) :=
  drop (length (log w)) (log w').

(** What the approval step has no request to change in an issue. *)
Definition issue_identity (i : Issue)
    : string * string * Z * Z * string * string * bool :=
  (i_org i, i_repo i, i_number i, i_id i, i_title i, i_body i, i_open i).

(** Every byte of the text is an ASCII character. *)
Fixpoint all_ascii (s : string) : bool :=
  match s with
  | EmptyString => true
  | String c s' => (code c <? 128)%nat && all_ascii s'
  end.

(** The text does not start with a byte that could end U+212A or U+0130. *)
Definition clean_start (s : string) : bool :=
  match s with
  | EmptyString => true
  | String c _ =>
      negb ((code c =? 132)%nat || (code c =? 170)%nat || (code c =? 176)%nat)
  end.

(** A world in which every request is answered. *)
Definition calm (w : World) : Prop := forall n, fault w n = None.

(* ================================================================== *)
(** ** Sample worlds *)
(* ================================================================== *)

Module Samples.

Definition cfg : Config :=
  mkConfig "sk-test" "gpt-4" "ghp-test" "datan8" "SG.test" "noreply@datan8.com".

Definition d0 : DateTime := mkDateTime 2024 3 7 9 5 1.

(** A quiet world: an empty tracker, every request answered, the chat
    model replying [reply], a clock that stands still on a machine that
    keeps UTC, a search that scores every issue alike. *)
Definition quiet (reply : string) : World :=
  mkWorld [] [] (fun _ => None) (fun _ => reply) (fun _ => d0) 0 (fun _ => 123456) 0
          (fun _ => d0) (fun _ _ => 0).

(** The token of the quiet world and an open issue that embeds it. *)
Definition tok : string := "APPR-20240307090501-7456".

Definition pending (n : Z) : Issue :=
  mkIssue "datan8" "sa-template" n n "Page not found error - needs routing fix"
    (issue_body "bug" (email_content test_data) "https://example.com"
                "test-account-001" tok "2024-03-07 09:05:01 UTC")
    (issue_labels "bug") true [].

(** The quiet world with a given tracker content. *)
Definition tracking (l : list Issue) : World :=
  mkWorld l [] (fun _ => None) (fun _ => "neither") (fun _ => d0) 0 (fun _ => 123456) 0
          (fun _ => d0) (fun _ _ => 0).

Definition one_match : World := tracking [pending 7].

Definition two_matches : World := tracking [pending 7; pending 9].

(** One open issue holding the token, and a tracker that answers the
    search but fails the next request. *)
Definition update_fails : World :=
  mkWorld [pending 7] []
          (fun n => match n with 1%nat => Some "502 Server Error: Bad Gateway" | _ => None end)
          (fun _ => "neither") (fun _ => d0) 0 (fun _ => 123456) 0
          (fun _ => d0) (fun _ _ => 0).

(** A world whose first request fails in transport. *)
Definition offline (reply : string) : World :=
  mkWorld [] [] (fun n => match n with O => Some "ConnectionError" | _ => None end)
          (fun _ => reply) (fun _ => d0) 0 (fun _ => 123456) 0
          (fun _ => d0) (fun _ _ => 0).



End Samples.

(* ================================================================== *)
(** ** email-automation-test.py: the client account and its repository *)
(* ================================================================== *)

Module Url.

(** [s.replace(old, new)] for a non-empty [old]: occurrences are replaced
    from the left and do not overlap; [pending] counts the characters of
    a match that remain to be passed over. *)
Fixpoint replace_from (old new : string) (pending : nat) (s : string) : string :=
  match s with
  | EmptyString => EmptyString
  | String c s' =>
      match pending with
      | S k => replace_from old new k s'
      | O =>
          if String.prefix old s
          then new +:+ replace_from old new (String.length old - 1) s'
          else String c (replace_from old new 0 s')
      end
  end.

Definition replace (old new s : string) : string := replace_from old new 0 s.

(** The characters [urllib.parse.quote] never encodes, with its default
    [safe='/']. *)
Definition is_safe (c : ascii) : bool :=
  is_upper c || is_lower c || is_digit c
  || Ascii.eqb c "_" || Ascii.eqb c "." || Ascii.eqb c "-" || Ascii.eqb c "~"
  || Ascii.eqb c "/".

Definition hex_digit (n : nat) : ascii :=
  if (n <? 10)%nat then ascii_of_nat (48 + n) else ascii_of_nat (55 + n).

(** [%XX], in upper-case hexadecimal. *)
Definition percent (c : ascii) : string :=
  String "%" (String (hex_digit (code c / 16))
                     (String (hex_digit (code c mod 16)) EmptyString)).

(** [urllib.parse.quote(s)] on the UTF-8 bytes of [s]. *)
Fixpoint quote (s : string) : string :=
  match s with
  | EmptyString => EmptyString
  | String c s' =>
      if is_safe c then String c (quote s') else percent c +:+ quote s'
  end.

Definition is_hex (c : ascii) : bool :=
  is_digit c || ((65 <=? code c)%nat && (code c <=? 70)%nat).

(** Every [%] is followed by two upper-case hexadecimal digits and every
    other character is safe. *)
Fixpoint well_quoted (s : string) : bool :=
  match s with
  | EmptyString => true
  | String c s' =>
      if Ascii.eqb c "%"
      then match s' with
           | String a (String b r) => is_hex a && is_hex b && well_quoted r
           | _ => false
           end
      else is_safe c && well_quoted s'
  end.

Fixpoint has_char (c : ascii) (s : string) : bool :=
  match s with
  | EmptyString => false
  | String x s' => Ascii.eqb x c || has_char c s'
  end.

End Url.

(** A key of a JSON object that may be absent, [null] or a string. *)
Inductive JName := NameMissing | NameNull | NameStr (s : string).

Record CustomField := mkField {
  f_name : JName;
  (** [field.get('value')] *)
  f_value : option string
}.

(** A contact of the lookup answer, with the keys the function reads. *)
Record Contact := mkContact {
  (** [contact['id']], when the key is there *)
  c_id : option string;
  (** [contact.get('customFields')]; absent and [null] read as empty *)
  c_customFields : list CustomField;
  (** [contact.get('website')] *)
  c_website : option string
}.

Record AccountInfo := mkAccountInfo {
  AccountId : string;
  WebsiteUrl : option string;
  TheContact : Contact
}.

(** Truth of an optional string in a condition: [None] and [''] are false. *)
Definition truthy (v : option string) : bool :=
  match v with
  | Some s => negb (String.eqb s EmptyString)
  | None => false
  end.

Definition mentions_website (name : string) : bool :=
  contains (lower name) "website" || contains (lower name) "url".

(** The loop over [contact['customFields']]: the value of the first field
    whose name mentions a website, [None] when there is none; a [null]
    name raises ([inl]). *)
Fixpoint website_field (fields : list CustomField) : string + option string :=
  match fields with
  | [] => inr None
  | field :: rest =>
      match f_name field with
      | NameNull => inl "AttributeError: 'NoneType' object has no attribute 'lower'"
      | NameMissing => website_field rest
      | NameStr name =>
          if mentions_website name then inr (f_value field)
          else website_field rest
      end
  end.

Definition lookup_url (client_email : string) : string :=
  "https://rest.gohighlevel.com/v1/contacts/lookup?email=" +:+ Url.quote client_email.

Section AccountLookup.

(** The contact service: what [requests.get(url, headers)] followed by
    [raise_for_status()] and [json()['contacts']] gives for an API key and
    an address, an exception message or the list of contacts. *)
Variable lookup : string -> string -> string + list Contact.

(** [find_client_account(config, client_email)], with [config['GHL_API_KEY']]
    as [ghl_api_key]. *)
Definition find_client_account (ghl_api_key client_email : string)
    : option AccountInfo :=
  match lookup ghl_api_key (lookup_url client_email) with
  | inl _ => None
  | inr [] => None
  | inr (contact :: _) =>
      match c_id contact with
      | None => None
      | Some account_id =>
          match website_field (c_customFields contact) with
          | inl _ => None
          | inr website_url =>
              let website_url :=
                if truthy website_url then website_url else c_website contact in
              Some (mkAccountInfo account_id website_url contact)
          end
      end
  end.

End AccountLookup.

Section Repository.

(** [urlparse(url).netloc], or the message of the exception it raises. *)
Variable netloc : string -> string + string.

(** [get_client_repository(account_id, website_url)] *)
Definition get_client_repository (account_id : string) (website_url : option string)
    : string :=
  let fallback := "client-" +:+ account_id in
  match website_url with
  | Some url =>
      if truthy website_url then
        match netloc url with
        | inr host =>
            let domain := Url.replace "www." "" host in
            Url.replace "." "-" domain
        | inl _ => fallback
        end
      else fallback
  | None => fallback
  end.

End Repository.

(* ================================================================== *)
(** ** Further sample data *)
(* ================================================================== *)

Module Fixtures.

(** A network location reader good enough for [scheme://host/path]
    addresses without port, user or query. *)
Definition simple_netloc (url : string) : string + string :=
  match cut "://" url with
  | Some (_, r) =>
      match cut "/" r with
      | Some (host, _) => inr host
      | None => inr r
      end
  | None => inr EmptyString
  end.

Definition acme : Contact :=
  mkContact (Some "acc-17")
    [mkField (NameStr "Phone") (Some "555-0100");
     mkField (NameStr "Company Website") (Some "https://www.acme.example.com/home");
     mkField (NameStr "Backup URL") (Some "https://old.acme.example.com")]
    (Some "https://fallback.example.org").

Definition directory (key url : string) : string + list Contact :=
  if String.eqb url (lookup_url "jo@acme.example.com") then inr [acme]
  else inr [].

(** A world in which the first three requests are answered and the
    fourth (the search of the approval step) is not. *)
Definition search_fails (reply : string) : World :=
  mkWorld [] []
          (fun n => match n with 3%nat => Some "503 Server Error" | _ => None end)
          (fun _ => reply) (fun _ => Samples.d0) 0 (fun _ => 123456) 0
          (fun _ => Samples.d0) (fun _ _ => 0).

(** The quiet world with an open issue that already holds the token the
    clock and the random source are about to produce, and which the
    search of the tracker ranks above every other issue. *)
Definition colliding (reply : string) : World :=
  mkWorld [Samples.pending 7] [] (fun _ => None) (fun _ => reply)
          (fun _ => Samples.d0) 0 (fun _ => 123456) 0
          (fun _ => Samples.d0)
          (fun _ i => if bool_decide (i = Samples.pending 7) then 1 else 0).

(** One open issue holding the token, in a tracker that answers the
    search and the label update and fails the comment. *)
Definition comment_fails : World :=
  mkWorld [Samples.pending 7] []
          (fun n => match n with 2%nat => Some "502 Bad Gateway" | _ => None end)
          (fun _ => "neither") (fun _ => Samples.d0) 0 (fun _ => 123456) 0
          (fun _ => Samples.d0) (fun _ _ => 0).

(** The quiet world at a later tick, with a random source that differs
    from the one of the quiet world by 9000. *)
Definition later_draw : World :=
  mkWorld [] [] (fun _ => None) (fun _ => "") (fun _ => Samples.d0) 5
          (fun _ => 123456 + 9000) 0 (fun _ => Samples.d0) (fun _ _ => 0).

(** Worlds in which the [k]-th request fails. *)
Definition fails_at (k : nat) (reply : string) : World :=
  mkWorld [] [] (fun n => if Nat.eqb n k then Some "500 Server Error" else None)
          (fun _ => reply) (fun _ => Samples.d0) 0 (fun _ => 123456) 0
          (fun _ => Samples.d0) (fun _ _ => 0).

End Fixtures.

(* ================================================================== *)
(** * Properties *)
(* ================================================================== *)

(** ** Text *)

Example split1_two : split1 ": " "bug: a: b" = ["bug"; "a: b"].
Proof. reflexivity. Qed.

Example split1_none : split1 ": " "neither" = ["neither"].
Proof. reflexivity. Qed.

Example strip_both : strip "  bug
 " = "bug".
Proof. reflexivity. Qed.

(** White space outside ASCII is stripped too (here U+00A0, U+2003 and
    U+2028), and only at the ends. *)
Example strip_wide : strip "   bug fix   " = "bug fix".
Proof. reflexivity. Qed.

Example strip_blank : strip "  
" = "".
Proof. reflexivity. Qed.

Example lower_wide : lower "BROKEN LİNK" = "broken li" +:+ dot_above +:+ "nk".
Proof. reflexivity. Qed.

Example title_bug : title "bug" = "Bug" /\ title "FEATURE x" = "Feature X".
Proof. split; reflexivity. Qed.

Example zero_pad_ex : zero_pad 2 7 = "07" /\ zero_pad 4 42 = "0042" /\ zero_pad 2 31 = "31".
Proof. repeat split; reflexivity. Qed.

#[local] Arguments String.append !_ _ / : simpl nomatch.

Section TextFacts.

Implicit Types (s t a b r needle : string) (c : ascii).

Lemma prefix_app s t : String.prefix s (s +:+ t) = true.
Proof.
  induction s as [|c s IH]; simpl.
  - destruct t; reflexivity.
  - destruct (ascii_dec c c) as [_|Hne]; [exact IH | congruence].
Qed.

Lemma prefix_app_l needle a b :
  String.prefix needle a = true -> String.prefix needle (a +:+ b) = true.
Proof.
  revert a. induction needle as [|c n IH]; intros a H;
    [destruct (a +:+ b); reflexivity|].
  destruct a as [|c' a]; simpl in *; [discriminate|].
  destruct (ascii_dec c c'); [apply IH; exact H | discriminate].
Qed.

Lemma contains_unfold hay needle :
  contains hay needle =
  String.prefix needle hay
  || match hay with
     | EmptyString => false
     | String _ hay' => contains hay' needle
     end.
Proof. destruct hay; reflexivity. Qed.

Lemma contains_head needle r : contains (needle +:+ r) needle = true.
Proof. rewrite contains_unfold, prefix_app. reflexivity. Qed.

Lemma app_empty_r a : a +:+ "" = a.
Proof. induction a as [|c a IH]; simpl; [reflexivity | now rewrite IH]. Qed.

Lemma contains_refl needle : contains needle needle = true.
Proof.
  pose proof (contains_head needle "") as H.
  now rewrite app_empty_r in H.
Qed.

Lemma contains_skip a r needle :
  contains r needle = true -> contains (a +:+ r) needle = true.
Proof.
  intros H. induction a as [|c a IH]; simpl; [exact H|].
  rewrite IH. apply orb_true_r.
Qed.

Lemma contains_app_l a b needle :
  contains a needle = true -> contains (a +:+ b) needle = true.
Proof.
  induction a as [|c a IH]; intros H; rewrite contains_unfold in H;
    apply orb_true_iff in H as [H|H]; rewrite contains_unfold.
  - now rewrite (prefix_app_l needle "" b H).
  - discriminate.
  - now rewrite (prefix_app_l _ _ b H).
  - simpl. rewrite (IH H). apply orb_true_r.
Qed.

Lemma strlen_app a b :
  String.length (a +:+ b) = (String.length a + String.length b)%nat.
Proof. induction a as [|c a IH]; simpl; [reflexivity | now rewrite IH]. Qed.

Lemma skip_app a b : skip (String.length a) (a +:+ b) = b.
Proof. induction a as [|c a IH]; simpl; [reflexivity | exact IH]. Qed.

Lemma substring_0_app a b : substring 0 (String.length a) (a +:+ b) = a.
Proof.
  induction a as [|c a IH]; simpl.
  - destruct b; reflexivity.
  - now rewrite IH.
Qed.

Lemma all_digits_app a b : all_digits (a +:+ b) = all_digits a && all_digits b.
Proof.
  induction a as [|c a IH]; simpl; [reflexivity|].
  rewrite IH. apply andb_assoc.
Qed.


Lemma digits_value_from_app acc a b :
  digits_value_from acc (a +:+ b) = digits_value_from (digits_value_from acc a) b.
Proof. revert acc. induction a as [|c a IH]; intros acc; simpl; [reflexivity | apply IH]. Qed.

Lemma digits_value_from_shift acc a :
  digits_value_from acc a = acc * 10 ^ Z.of_nat (String.length a) + digits_value a.
Proof.
  unfold digits_value. revert acc.
  induction a as [|c a IH]; intros acc.
  - simpl. lia.
  - cbn [digits_value_from String.length].
    rewrite IH, (IH (0 * 10 + _)).
    rewrite Nat2Z.inj_succ, Z.pow_succ_r by lia. ring.
Qed.

Lemma forall_from_spec (f : Z -> bool) lo n :
  forall_from f lo n = true ->
  forall z, lo <= z < lo + Z.of_nat n -> f z = true.
Proof.
  revert lo. induction n as [|n IH]; intros lo H z Hz; [lia|].
  cbn [forall_from] in H. apply andb_true_iff in H as [H0 H1].
  destruct (Z.eq_dec z lo) as [->|Hne]; [exact H0|].
  apply (IH (lo + 1) H1). lia.
Qed.

Lemma forall_range (f : Z -> bool) lo len :
  forall_from f lo (Z.to_nat len) = true ->
  forall z, lo <= z < lo + len -> f z = true.
Proof.
  intros H z Hz. apply (forall_from_spec f lo (Z.to_nat len) H). lia.
Qed.

End TextFacts.

(** ** Tokens *)

Section TokenFacts.

#[local] Arguments String.append !_ _ / : simpl nomatch.

Lemma pad2_ok n : 0 <= n <= 99 -> pad_ok 2 n = true.
Proof.
  intros H. apply (forall_range (pad_ok 2) 0 100); [vm_compute; reflexivity | lia].
Qed.

Lemma pad4_ok n : 0 <= n <= 9999 -> pad_ok 4 n = true.
Proof.
  intros H. apply (forall_range (pad_ok 4) 0 10000); [vm_compute; reflexivity | lia].
Qed.

Lemma str_int_four_digits n : 1000 <= n <= 9999 -> str_int n = zero_pad 4 n.
Proof.
  intros H. apply String.eqb_eq.
  apply (forall_range str_is_pad4 1000 9000); [vm_compute; reflexivity | lia].
Qed.

Lemma pad_ok_elim width n :
  pad_ok width n = true ->
  String.length (zero_pad width n) = width /\
  all_digits (zero_pad width n) = true /\
  digits_value (zero_pad width n) = n.
Proof.
  unfold pad_ok. cbv zeta. intros H.
  apply andb_true_iff in H as [H Hv]. apply andb_true_iff in H as [Hl Hd].
  apply Nat.eqb_eq in Hl. apply Z.eqb_eq in Hv. auto.
Qed.

Lemma strftime_compact_shape d :
  valid_datetime d ->
  String.length (strftime_compact d) = 14%nat /\
  all_digits (strftime_compact d) = true /\
  digits_value (strftime_compact d) = stamp d.
Proof.
  intros (Hy & Hm & Hd & Hh & Hmi & Hs).
  destruct (pad_ok_elim 4 (year d)) as (Ly & Dy & Vy); [apply pad4_ok; lia|].
  destruct (pad_ok_elim 2 (month d)) as (Lm & Dm & Vm); [apply pad2_ok; lia|].
  destruct (pad_ok_elim 2 (day d)) as (Ld & Dd & Vd); [apply pad2_ok; lia|].
  destruct (pad_ok_elim 2 (hour d)) as (Lh & Dh & Vh); [apply pad2_ok; lia|].
  destruct (pad_ok_elim 2 (minute d)) as (Lmi & Dmi & Vmi); [apply pad2_ok; lia|].
  destruct (pad_ok_elim 2 (second d)) as (Ls & Ds & Vs); [apply pad2_ok; lia|].
  unfold strftime_compact, stamp. repeat split.
  - rewrite !strlen_app, Ly, Lm, Ld, Lh, Lmi, Ls. reflexivity.
  - rewrite !all_digits_app, Dy, Dm, Dd, Dh, Dmi, Ds. reflexivity.
  - unfold digits_value at 1. rewrite !digits_value_from_app.
    rewrite (digits_value_from_shift _ (zero_pad 2 (second d))), Ls, Vs.
    rewrite (digits_value_from_shift _ (zero_pad 2 (minute d))), Lmi, Vmi.
    rewrite (digits_value_from_shift _ (zero_pad 2 (hour d))), Lh, Vh.
    rewrite (digits_value_from_shift _ (zero_pad 2 (day d))), Ld, Vd.
    rewrite (digits_value_from_shift _ (zero_pad 2 (month d))), Lm, Vm.
    fold (digits_value (zero_pad 4 (year d))). rewrite Vy.
    change (10 ^ Z.of_nat 2) with 100. ring.
Qed.





Lemma token_text_timestamp d suffix :
  valid_datetime d -> token_timestamp (token_text d suffix) = strftime_compact d.
Proof.
  intros Hd. destruct (strftime_compact_shape d Hd) as (L & _ & _).
  unfold token_timestamp, token_text.
  change (substring 5 14 ("APPR-" +:+ strftime_compact d +:+ "-" +:+ suffix))
    with (substring 0 14 (strftime_compact d +:+ "-" +:+ suffix)).
  rewrite <- L. apply substring_0_app.
Qed.

Lemma append_assoc a b c : (a +:+ b) +:+ c = a +:+ (b +:+ c).
Proof. induction a as [|x a IH]; simpl; [reflexivity | now rewrite IH]. Qed.

Lemma token_text_suffix d suffix :
  valid_datetime d -> token_suffix (token_text d suffix) = suffix.
Proof.
  intros Hd. destruct (strftime_compact_shape d Hd) as (L & _ & _).
  unfold token_suffix, token_text.
  rewrite <- !append_assoc.
  replace 20%nat with (String.length (("APPR-" +:+ strftime_compact d) +:+ "-")).
  - apply skip_app.
  - rewrite !strlen_app, L. reflexivity.
Qed.

Lemma generate_approval_token_run w :
  generate_approval_token w =
  (inr (token_text (clock w (ticks w))
                   (str_int (1000 + entropy w (draws w) mod 9000))),
   draw (tick w)).
Proof. reflexivity. Qed.

End TokenFacts.

Lemma random_suffix_shape e :
  let n := 1000 + e mod 9000 in
  String.length (str_int n) = 4%nat /\ all_digits (str_int n) = true /\
  digits_value (str_int n) = n /\ 1000 <= n <= 9999.
Proof.
  intros n. assert (Hn : 1000 <= n <= 9999)
    by (unfold n; pose proof (Z.mod_pos_bound e 9000); lia).
  rewrite (str_int_four_digits n Hn).
  destruct (pad_ok_elim 4 n) as (L & D & V); [apply pad4_ok; lia | auto].
Qed.






(** ** Running the monad *)

Section MonadFacts.

Context {A B : Type}.

Lemma bind_ok (m : M A) (k : A -> M B) w a w' :
  m w = (inr a, w') -> bind m k w = k a w'.
Proof. unfold bind. now intros ->. Qed.

Lemma bind_raise (m : M A) (k : A -> M B) w e w' :
  m w = (inl e, w') -> bind m k w = (inl e, w').
Proof. unfold bind. now intros ->. Qed.

Lemma try_ok (m : M A) h w a w' :
  m w = (inr a, w') -> try_catch m h w = (inr a, w').
Proof. unfold try_catch. now intros ->. Qed.

Lemma try_raise (m : M A) h w e w' :
  m w = (inl e, w') -> try_catch m h w = h e w'.
Proof. unfold try_catch. now intros ->. Qed.

End MonadFacts.

Lemma http_fault r w msg :
  fault w (length (log w)) = Some msg ->
  http r w = (inl msg, record (r, false) w).
Proof. unfold http. now intros ->. Qed.

Lemma http_ok r w resp l :
  fault w (length (log w)) = None -> serve r w = Some (resp, l) ->
  http r w = (inr resp, set_issues l (record (r, true) w)).
Proof. unfold http. now intros -> ->. Qed.

Lemma log_record e w : log (record e w) = log w ++ [e].
Proof. reflexivity. Qed.

Lemma length_log_record e w : length (log (record e w)) = S (length (log w)).
Proof. rewrite log_record, length_app. simpl. lia. Qed.

(** ** The tracker *)

Section TrackerFacts.

Implicit Types (l : list Issue) (i : Issue) (org repo : string) (n : Z).

Lemma same_issue_self org repo i :
  in_repo org repo i = true -> same_issue org repo (i_number i) i = true.
Proof. unfold same_issue, in_repo. intros ->. apply Z.eqb_refl. Qed.

Lemma hit_in_repo org repo term b o i :
  hit org repo term b o i = true -> in_repo org repo i = true.
Proof. unfold hit. intros H. now do 2 (apply andb_true_iff in H as [H _]). Qed.

Lemma hit_open org repo term b i :
  hit org repo term b true i = true -> i_open i = true.
Proof.
  unfold hit. intros H. apply andb_true_iff in H as [_ H].
  now rewrite orb_false_r in H.
Qed.

Lemma hit_body org repo term o i :
  hit org repo term true o i = true -> contains (i_body i) term = true.
Proof.
  unfold hit. intros H. apply andb_true_iff in H as [H _].
  apply andb_true_iff in H as [_ H]. now rewrite orb_false_r in H.
Qed.

Lemma find_issue_present org repo l i :
  In i l -> in_repo org repo i = true ->
  exists j, find_issue org repo (i_number i) l = Some j.
Proof.
  intros Hin Hrepo. unfold find_issue.
  destruct (List.find _ l) as [j|] eqn:E; [eauto|].
  pose proof (find_none _ _ E i Hin) as H.
  now rewrite (same_issue_self _ _ _ Hrepo) in H.
Qed.

Lemma same_issue_set_labels org repo n labels i :
  same_issue org repo n (set_labels labels i) = same_issue org repo n i.
Proof. reflexivity. Qed.

Lemma same_issue_add_comment org repo n body i :
  same_issue org repo n (add_comment body i) = same_issue org repo n i.
Proof. reflexivity. Qed.

Lemma find_issue_update org repo n (f : Issue -> Issue) l :
  (forall i, same_issue org repo n (f i) = same_issue org repo n i) ->
  find_issue org repo n (update_issue org repo n f l)
  = option_map f (find_issue org repo n l).
Proof.
  intros Hf. unfold find_issue, update_issue.
  induction l as [|i l IH]; [reflexivity|]. simpl.
  destruct (same_issue org repo n i) eqn:E.
  - now rewrite Hf, E.
  - rewrite E. exact IH.
Qed.

Lemma rank_insert_In score i l x :
  In x (rank_insert score i l) <-> x = i \/ In x l.
Proof.
  induction l as [|j l IH]; cbn [rank_insert In]; [intuition congruence|].
  destruct (score j <=? score i); cbn [In]; [intuition congruence|].
  rewrite IH. intuition congruence.
Qed.

Lemma ranked_In score l x : In x (ranked score l) <-> In x l.
Proof.
  unfold ranked. induction l as [|i l IH]; cbn [fold_right In]; [reflexivity|].
  rewrite rank_insert_In, IH. intuition congruence.
Qed.

Lemma rank_insert_length score i l :
  length (rank_insert score i l) = S (length l).
Proof.
  induction l as [|j l IH]; cbn [rank_insert length]; [reflexivity|].
  destruct (score j <=? score i); cbn [length]; [reflexivity | now rewrite IH].
Qed.

Lemma ranked_length score l : length (ranked score l) = length l.
Proof.
  unfold ranked. induction l as [|i l IH]; cbn [fold_right length]; [reflexivity|].
  now rewrite rank_insert_length, IH.
Qed.

Lemma ranked_nil_inv score l : ranked score l = [] -> l = [].
Proof.
  intros H. pose proof (ranked_length score l) as L. rewrite H in L.
  destruct l; [reflexivity | discriminate L].
Qed.

Lemma open_matches_head org repo token w i rest :
  open_matches org repo token w = i :: rest ->
  In i (issues w) /\ in_repo org repo i = true /\ i_open i = true
  /\ contains (i_body i) token = true.
Proof.
  intros H. assert (Hin : In i (open_matches org repo token w)) by (rewrite H; now left).
  unfold open_matches, search_items in Hin.
  apply ranked_In, filter_In in Hin as [Hin Hhit].
  repeat split; eauto using hit_in_repo, hit_open, hit_body.
Qed.

End TrackerFacts.

(** ** The approval step, case by case *)

Section ApprovalCases.

Variables (config : Config) (approval_token repository : string) (w : World).

#[local] Abbreviation org := (GITHUB_ORG config).
#[local] Abbreviation n0 := (length (log w)).
#[local] Abbreviation search := (SearchIssues org repository approval_token true true).
#[local] Abbreviation update n := (UpdateIssue org repository n approved_labels).
#[local] Abbreviation comment n :=
  (CreateComment org repository n
     (comment_body approval_token repository (strftime_long (clock w (ticks w))))).
#[local] Abbreviation searched := (record (search, true) w).
#[local] Abbreviation updated n :=
  (set_issues (update_issue org repository n (set_labels approved_labels) (issues w))
              (record (update n, true) searched)).
#[local] Abbreviation approve := (simulate_approval_and_trigger_amazon_q config approval_token repository).

Lemma positive_count n : (0 <? Z.of_nat (S n)) = true.
Proof. reflexivity. Qed.

Lemma find_issue_by_token_ok :
  fault w n0 = None ->
  find_issue_by_token config approval_token repository w =
  (inr (Z.of_nat (length (open_matches org repository approval_token w)),
        open_matches org repository approval_token w), searched).
Proof.
  intros H. unfold find_issue_by_token.
  erewrite bind_ok; [|apply http_ok; [exact H | reflexivity]].
  reflexivity.
Qed.

Lemma find_issue_by_token_fault msg :
  fault w n0 = Some msg ->
  find_issue_by_token config approval_token repository w =
  (inl msg, record (search, false) w).
Proof.
  intros H. unfold find_issue_by_token.
  erewrite bind_raise; [reflexivity|]. now apply http_fault.
Qed.

Lemma approval_search_fault msg :
  fault w n0 = Some msg ->
  approve w = (inr (ApprovalFailed msg), record (search, false) w).
Proof.
  intros H. unfold simulate_approval_and_trigger_amazon_q.
  erewrite try_raise; [reflexivity|].
  erewrite bind_raise; [reflexivity|]. now apply find_issue_by_token_fault.
Qed.

Lemma approval_not_found :
  fault w n0 = None ->
  open_matches org repository approval_token w = [] ->
  approve w = (inr (ApprovalFailed "Issue not found"), searched).
Proof.
  intros H E. unfold simulate_approval_and_trigger_amazon_q.
  erewrite try_ok; [reflexivity|].
  erewrite bind_ok; [|now apply find_issue_by_token_ok].
  rewrite E. reflexivity.
Qed.

Lemma advance_to_approved_ok i w0 :
  fault w0 (length (log w0)) = None ->
  In i (issues w0) -> in_repo org repository i = true ->
  advance_to_approved config repository (i_number i) w0 =
  (inr tt,
   set_issues (update_issue org repository (i_number i) (set_labels approved_labels)
                 (issues w0))
              (record (UpdateIssue org repository (i_number i) approved_labels, true) w0)).
Proof.
  intros H Hin Hrepo. unfold advance_to_approved.
  destruct (find_issue_present org repository _ _ Hin Hrepo) as [j Hj].
  erewrite bind_ok; [reflexivity|].
  apply http_ok; [exact H|]. simpl. rewrite Hj. reflexivity.
Qed.

Lemma approval_update_fault i rest msg :
  fault w n0 = None ->
  open_matches org repository approval_token w = i :: rest ->
  fault w (S n0) = Some msg ->
  approve w = (inr (ApprovalFailed msg), record (update (i_number i), false) searched).
Proof.
  intros H E H1. unfold simulate_approval_and_trigger_amazon_q.
  erewrite try_raise; [reflexivity|].
  erewrite bind_ok; [|now apply find_issue_by_token_ok].
  rewrite E. cbn [length]. rewrite positive_count. cbn [lookup list_lookup].
  erewrite bind_raise; [reflexivity|].
  unfold advance_to_approved. erewrite bind_raise; [reflexivity|].
  apply http_fault. rewrite length_log_record. exact H1.
Qed.

Lemma approval_comment_fault i rest msg :
  fault w n0 = None ->
  open_matches org repository approval_token w = i :: rest ->
  fault w (S n0) = None ->
  fault w (S (S n0)) = Some msg ->
  approve w = (inr (ApprovalFailed msg),
               record (comment (i_number i), false) (tick (updated (i_number i)))).
Proof.
  intros H E H1 H2. unfold simulate_approval_and_trigger_amazon_q.
  destruct (open_matches_head _ _ _ _ _ _ E) as (Hin & Hrepo & _).
  erewrite try_raise; [reflexivity|].
  erewrite bind_ok; [|now apply find_issue_by_token_ok].
  rewrite E. cbn [length]. rewrite positive_count. cbn [lookup list_lookup].
  erewrite bind_ok;
    [|apply advance_to_approved_ok; [rewrite length_log_record; exact H1 | exact Hin | exact Hrepo]].
  erewrite bind_raise; [reflexivity|].
  unfold post_agent_trigger_comment.
  erewrite bind_ok; [|reflexivity].
  erewrite bind_raise; [reflexivity|].
  apply http_fault. cbn [tick set_issues log fault]. rewrite !length_log_record. exact H2.
Qed.

Lemma approval_done i rest :
  fault w n0 = None ->
  open_matches org repository approval_token w = i :: rest ->
  fault w (S n0) = None ->
  fault w (S (S n0)) = None ->
  approve w =
  (inr (ApprovalOk (i_number i) (html_url i)),
   set_issues
     (update_issue org repository (i_number i)
        (add_comment (comment_body approval_token repository
                        (strftime_long (clock w (ticks w)))))
        (update_issue org repository (i_number i) (set_labels approved_labels)
           (issues w)))
     (record (comment (i_number i), true) (tick (updated (i_number i))))).
Proof.
  intros H E H1 H2. unfold simulate_approval_and_trigger_amazon_q.
  destruct (open_matches_head _ _ _ _ _ _ E) as (Hin & Hrepo & _).
  destruct (find_issue_present org repository _ _ Hin Hrepo) as [j Hj].
  erewrite try_ok; [reflexivity|].
  erewrite bind_ok; [|now apply find_issue_by_token_ok].
  rewrite E. cbn [length]. rewrite positive_count. cbn [lookup list_lookup].
  erewrite bind_ok;
    [|apply advance_to_approved_ok; [rewrite length_log_record; exact H1 | exact Hin | exact Hrepo]].
  erewrite bind_ok; [reflexivity|].
  unfold post_agent_trigger_comment.
  erewrite bind_ok; [|reflexivity].
  erewrite bind_ok; [reflexivity|].
  apply http_ok.
  - cbn [tick set_issues log fault]. rewrite !length_log_record. exact H2.
  - cbn [serve tick set_issues issues record].
    rewrite find_issue_update by apply same_issue_set_labels.
    rewrite Hj. reflexivity.
Qed.

End ApprovalCases.

(** ** Traces *)

Lemma issued_app w w' seg : log w' = log w ++ seg -> issued w w' = seg.
Proof. unfold issued. intros ->. apply drop_app_length. Qed.

Lemma issued_1 e w : issued w (record e w) = [e].
Proof. now apply issued_app. Qed.

Lemma comment_body_mentions_agent approval_token repository processed_at :
  contains (comment_body approval_token repository processed_at) "@amazon-q" = true.
Proof. unfold comment_body. apply contains_app_l. vm_compute. reflexivity. Qed.

Lemma update_issue_other org repo n f l j :
  In j l -> same_issue org repo n j = false -> In j (update_issue org repo n f l).
Proof.
  intros Hin Hne. unfold update_issue. apply in_map_iff.
  exists j. now rewrite Hne.
Qed.

Lemma update_issue_idem org repo n f l :
  (forall i, same_issue org repo n (f i) = same_issue org repo n i) ->
  (forall i, f (f i) = f i) ->
  update_issue org repo n f (update_issue org repo n f l) = update_issue org repo n f l.
Proof.
  intros Hsame Hidem. unfold update_issue. rewrite List.map_map.
  apply List.map_ext. intros i.
  destruct (same_issue org repo n i) eqn:E.
  - now rewrite Hsame, E, Hidem.
  - now rewrite E.
Qed.

Section ApprovalTrace.

Variables (config : Config) (approval_token repository : string) (w : World).

#[local] Abbreviation org := (GITHUB_ORG config).
#[local] Abbreviation search := (SearchIssues org repository approval_token true true).
#[local] Abbreviation update n := (UpdateIssue org repository n approved_labels).
#[local] Abbreviation approve :=
  (simulate_approval_and_trigger_amazon_q config approval_token repository).

(** What the approval step adds to the log, in every case. *)
Lemma approval_trace :
  let w' := snd (approve w) in
  issued w w' = [(search, false)]
  \/ (issued w w' = [(search, true)]
      /\ open_matches org repository approval_token w = [])
  \/ (exists i rest,
        open_matches org repository approval_token w = i :: rest /\
        (issued w w' = [(search, true); (update (i_number i), false)]
         \/ exists body ok,
             contains body "@amazon-q" = true /\
             issued w w' = [(search, true); (update (i_number i), true);
                            (CreateComment org repository (i_number i) body, ok)])).
Proof.
  cbv zeta.
  destruct (fault w (length (log w))) as [msg|] eqn:H0.
  { left. rewrite (approval_search_fault _ _ _ _ msg H0). apply issued_1. }
  destruct (open_matches org repository approval_token w) as [|i rest] eqn:E.
  { right; left. rewrite (approval_not_found _ _ _ _ H0 E). split; [apply issued_1 | reflexivity]. }
  right; right. exists i, rest. split; [reflexivity|].
  destruct (fault w (S (length (log w)))) as [msg|] eqn:H1.
  { left. rewrite (approval_update_fault _ _ _ _ i rest msg H0 E H1).
    apply issued_app. cbn. now rewrite <- app_assoc. }
  right. eexists _.
  destruct (fault w (S (S (length (log w))))) as [msg|] eqn:H2.
  - exists false. split; [apply comment_body_mentions_agent|].
    rewrite (approval_comment_fault _ _ _ _ i rest msg H0 E H1 H2).
    apply issued_app. cbn. now rewrite <- !app_assoc.
  - exists true. split; [apply comment_body_mentions_agent|].
    rewrite (approval_done _ _ _ _ i rest H0 E H1 H2).
    apply issued_app. cbn. now rewrite <- !app_assoc.
Qed.

End ApprovalTrace.

(** ** The approval step *)

(** C8.  In the approval step the comment that mentions [@amazon-q] is
    requested only after the label update of the same issue was requested
    and answered successfully; when the label update fails no comment is
    requested at all. *)
Theorem comment_only_after_label_update (config : Config)
    (approval_token repository : string) (w : World) :
  let w' := snd (simulate_approval_and_trigger_amazon_q config approval_token
                   repository w) in
  (forall k org repo n body ok,
      issued w w' !! k = Some (CreateComment org repo n body, ok) ->
      contains body "@amazon-q" = true /\
      exists j, (j < k)%nat /\
        issued w w' !! j = Some (UpdateIssue org repo n approved_labels, true)) /\
  (forall j r,
      issued w w' !! j = Some (r, false) -> is_update r = true ->
      forall k e, issued w w' !! k = Some e -> is_comment e.1 = false).
Proof.
  cbv zeta.
  destruct (approval_trace config approval_token repository w)
    as [E | [[E _] | (i & rest & _ & [E | (body & ok & Hb & E)])]];
    cbv zeta in E; rewrite E; clear E;
    (split;
     [ intros [|[|[|k]]] org repo n b o H; cbn in H; try discriminate
     | intros [|[|[|j]]] r Hj Hu; cbn in Hj; simplify_eq; try discriminate Hu;
       intros [|[|[|k]]] e He; cbn in He; simplify_eq; reflexivity ]).
  injection H as <- <- <- <- <-. split; [exact Hb|].
  exists 1%nat. split; [lia | reflexivity].
Qed.

(** The theorem at work: in a run where every request is answered the
    comment on issue 7 comes after its label update, and in a run where
    the label update fails the log shows no comment. *)
Lemma comment_only_after_label_update_witness :
  (exists j, (j < 2)%nat /\
     issued Samples.one_match
       (snd (simulate_approval_and_trigger_amazon_q Samples.cfg Samples.tok
               "sa-template" Samples.one_match)) !! j
     = Some (UpdateIssue "datan8" "sa-template" 7 approved_labels, true)) /\
  (forall k e,
     issued Samples.update_fails
       (snd (simulate_approval_and_trigger_amazon_q Samples.cfg Samples.tok
               "sa-template" Samples.update_fails)) !! k = Some e ->
     is_comment e.1 = false).
Proof.
  split.
  - destruct (comment_only_after_label_update Samples.cfg Samples.tok "sa-template"
                Samples.one_match) as [H _].
    destruct (H 2%nat "datan8" "sa-template" 7
                (comment_body Samples.tok "sa-template" (strftime_long Samples.d0)) true
                eq_refl) as (_ & j & Hj & E).
    exists j. split; [exact Hj | exact E].
  - destruct (comment_only_after_label_update Samples.cfg Samples.tok "sa-template"
                Samples.update_fails) as [_ H].
    apply (H 1%nat (UpdateIssue "datan8" "sa-template" 7 approved_labels));
      reflexivity.
Defined.

Lemma open_matches_iff org repo token w i :
  In i (open_matches org repo token w) <->
  In i (issues w) /\ in_repo org repo i = true /\ i_open i = true
  /\ contains (i_body i) token = true.
Proof.
  unfold open_matches, search_items. rewrite ranked_In, filter_In. unfold hit. split.
  - intros (Hin & H). apply andb_true_iff in H as [H Ho].
    apply andb_true_iff in H as [Hr Hb].
    rewrite orb_false_r in Ho, Hb. auto.
  - intros (Hin & Hr & Ho & Hb). split; [exact Hin|].
    now rewrite Hr, Ho, Hb.
Qed.

(** C4.  The approval step searches the repository for open issues whose
    body holds the token.  When one open issue holds it, the step goes on
    with that issue; when none does, it reports [Issue not found] and
    requests neither a label update nor a comment. *)
Theorem find_issue_by_token_open_only (config : Config)
    (approval_token repository : string) (w : World) :
  fault w (length (log w)) = None ->
  let org := GITHUB_ORG config in
  let search := SearchIssues org repository approval_token true true in
  let found := open_matches org repository approval_token w in
  let approve :=
    simulate_approval_and_trigger_amazon_q config approval_token repository in
  find_issue_by_token config approval_token repository w
    = (inr (Z.of_nat (length found), found), record (search, true) w) /\
  (forall i, In i found <->
             In i (issues w) /\ in_repo org repository i = true /\
             i_open i = true /\ contains (i_body i) approval_token = true) /\
  (forall i, found = [i] ->
     (exists ok, issued w (snd (approve w)) !! 1%nat
                 = Some (UpdateIssue org repository (i_number i) approved_labels, ok)) /\
     (fault w (S (length (log w))) = None ->
      fault w (S (S (length (log w)))) = None ->
      fst (approve w) = inr (ApprovalOk (i_number i) (html_url i)))) /\
  (found = [] ->
     fst (approve w) = inr (ApprovalFailed "Issue not found") /\
     issues (snd (approve w)) = issues w /\
     issued w (snd (approve w)) = [(search, true)]).
Proof.
  intros H0. cbv zeta. split; [now apply find_issue_by_token_ok|].
  split; [intros i; apply open_matches_iff|]. split.
  - intros i E. split.
    + destruct (fault w (S (length (log w)))) as [msg|] eqn:H1.
      { exists false. rewrite (approval_update_fault _ _ _ _ i [] msg H0 E H1).
        erewrite issued_app; [|cbn; now rewrite <- app_assoc]. reflexivity. }
      exists true.
      destruct (fault w (S (S (length (log w))))) as [msg|] eqn:H2.
      * rewrite (approval_comment_fault _ _ _ _ i [] msg H0 E H1 H2).
        erewrite issued_app; [|cbn; now rewrite <- !app_assoc]. reflexivity.
      * rewrite (approval_done _ _ _ _ i [] H0 E H1 H2).
        erewrite issued_app; [|cbn; now rewrite <- !app_assoc]. reflexivity.
    + intros H1 H2. now rewrite (approval_done _ _ _ _ i [] H0 E H1 H2).
  - intros E. rewrite (approval_not_found _ _ _ _ H0 E).
    repeat split. apply issued_1.
Qed.

(** The theorem at work on a tracker with one open issue holding the
    token, and on an empty tracker. *)
Lemma find_issue_by_token_open_only_witness :
  fst (simulate_approval_and_trigger_amazon_q Samples.cfg Samples.tok "sa-template"
         Samples.one_match)
    = inr (ApprovalOk 7 (html_url (Samples.pending 7))) /\
  fst (simulate_approval_and_trigger_amazon_q Samples.cfg Samples.tok "sa-template"
         (Samples.tracking []))
    = inr (ApprovalFailed "Issue not found").
Proof.
  split.
  - destruct (find_issue_by_token_open_only Samples.cfg Samples.tok "sa-template"
                Samples.one_match eq_refl) as (_ & _ & H & _).
    destruct (H (Samples.pending 7)) as [_ H']; [vm_compute; reflexivity|].
    apply H'; reflexivity.
  - destruct (find_issue_by_token_open_only Samples.cfg Samples.tok "sa-template"
                (Samples.tracking []) eq_refl) as (_ & _ & _ & H).
    apply H. reflexivity.
Defined.

(** C1, as stated, fails: with the token in the bodies of two open issues
    (numbers 7 and 9) the approval step raises nothing; it succeeds on the
    first of the two. *)
Lemma ambiguous_token_first_taken :
  List.map i_number (open_matches "datan8" "sa-template" Samples.tok Samples.two_matches)
    = [7; 9] /\
  fst (simulate_approval_and_trigger_amazon_q Samples.cfg Samples.tok "sa-template"
         Samples.two_matches)
    = inr (ApprovalOk 7 "https://github.com/datan8/sa-template/issues/7") /\
  ~ (exists e, fst (simulate_approval_and_trigger_amazon_q Samples.cfg Samples.tok
                      "sa-template" Samples.two_matches) = inl e
            \/ fst (simulate_approval_and_trigger_amazon_q Samples.cfg Samples.tok
                      "sa-template" Samples.two_matches) = inr (ApprovalFailed e)).
Proof.
  assert (H : fst (simulate_approval_and_trigger_amazon_q Samples.cfg Samples.tok
                     "sa-template" Samples.two_matches)
              = inr (ApprovalOk 7 "https://github.com/datan8/sa-template/issues/7"))
    by (vm_compute; reflexivity).
  split; [vm_compute; reflexivity|]. split; [exact H|].
  rewrite H. intros [e [E|E]]; discriminate E.
Qed.

(** C1 (amended).  When the search answers with one or more open issues
    holding the token, the approval step takes the first item of the
    result and goes on with it alone: with the three requests answered it
    reports success on that issue, having requested its label update and
    then its comment, and every issue that is not that one is left as it
    was.  No error is raised for the other matches. *)
Theorem approval_takes_first_match (config : Config)
    (approval_token repository : string) (w : World) (i : Issue)
    (rest : list Issue) :
  fault w (length (log w)) = None ->
  fault w (S (length (log w))) = None ->
  fault w (S (S (length (log w)))) = None ->
  open_matches (GITHUB_ORG config) repository approval_token w = i :: rest ->
  let org := GITHUB_ORG config in
  let w' := snd (simulate_approval_and_trigger_amazon_q config approval_token
                   repository w) in
  fst (simulate_approval_and_trigger_amazon_q config approval_token repository w)
    = inr (ApprovalOk (i_number i) (html_url i)) /\
  issued w w'
    = [(SearchIssues org repository approval_token true true, true);
       (UpdateIssue org repository (i_number i) approved_labels, true);
       (CreateComment org repository (i_number i)
          (comment_body approval_token repository (strftime_long (clock w (ticks w)))),
        true)] /\
  (forall j, In j (issues w) -> same_issue org repository (i_number i) j = false ->
             In j (issues w')).
Proof.
  intros H0 H1 H2 E. cbv zeta.
  rewrite (approval_done _ _ _ _ i rest H0 E H1 H2). cbn [fst snd].
  split; [reflexivity|]. split.
  - apply issued_app. cbn. now rewrite <- !app_assoc.
  - intros j Hin Hne. cbn [issues set_issues].
    apply update_issue_other; [|exact Hne]. now apply update_issue_other.
Qed.

Lemma approval_takes_first_match_witness :
  fst (simulate_approval_and_trigger_amazon_q Samples.cfg Samples.tok "sa-template"
         Samples.two_matches)
    = inr (ApprovalOk 7 (html_url (Samples.pending 7))) /\
  In (Samples.pending 9)
     (issues (snd (simulate_approval_and_trigger_amazon_q Samples.cfg Samples.tok
                     "sa-template" Samples.two_matches))).
Proof.
  destruct (approval_takes_first_match Samples.cfg Samples.tok "sa-template"
              Samples.two_matches (Samples.pending 7) [Samples.pending 9]
              eq_refl eq_refl eq_refl) as (H & _ & H').
  - vm_compute. reflexivity.
  - split; [exact H|]. apply H'; [right; left; reflexivity | reflexivity].
Defined.

(** ** The label update *)

Section LabelUpdate.

Variables (config : Config) (repository : string) (n : Z).

#[local] Abbreviation the_update :=
  (UpdateIssue (GITHUB_ORG config) repository n approved_labels).
#[local] Abbreviation relabel :=
  (update_issue (GITHUB_ORG config) repository n (set_labels approved_labels)).
#[local] Abbreviation lookup_issue :=
  (find_issue (GITHUB_ORG config) repository n).

Lemma advance_to_approved_found w i :
  fault w (length (log w)) = None ->
  lookup_issue (issues w) = Some i ->
  advance_to_approved config repository n w
  = (inr tt, set_issues (relabel (issues w)) (record (the_update, true) w)).
Proof.
  intros H Hi. unfold advance_to_approved.
  erewrite bind_ok; [reflexivity|].
  apply http_ok; [exact H|]. cbn [serve]. now rewrite Hi.
Qed.

Lemma advance_to_approved_missing w :
  fault w (length (log w)) = None ->
  lookup_issue (issues w) = None ->
  advance_to_approved config repository n w
  = (inl not_found_msg, record (the_update, false) w).
Proof.
  intros H Hi. unfold advance_to_approved.
  erewrite bind_raise; [reflexivity|].
  unfold http. rewrite H. cbn [serve]. now rewrite Hi.
Qed.

Lemma lookup_relabel l :
  lookup_issue (relabel l) = option_map (set_labels approved_labels) (lookup_issue l).
Proof. apply find_issue_update. intros i. apply same_issue_set_labels. Qed.

Lemma relabel_idem l : relabel (relabel l) = relabel l.
Proof. apply update_issue_idem; reflexivity. Qed.

End LabelUpdate.

(** C5.  The label update of the approval step is idempotent: with both
    requests answered, a second update of the same issue leaves the
    tracker as the first one left it and ends as the first one ended; on
    an issue that exists both succeed, the second one finding every label
    already present, and the label set after two updates is the label set
    after one. *)
Theorem advance_to_approved_idempotent (config : Config) (repository : string)
    (n : Z) (w : World) :
  fault w (length (log w)) = None ->
  fault w (S (length (log w))) = None ->
  let org := GITHUB_ORG config in
  let w1 := snd (advance_to_approved config repository n w) in
  let w2 := snd (advance_to_approved config repository n w1) in
  issues w2 = issues w1 /\
  fst (advance_to_approved config repository n w1)
    = fst (advance_to_approved config repository n w) /\
  (forall i, find_issue org repository n (issues w) = Some i ->
     fst (advance_to_approved config repository n w) = inr tt /\
     fst (advance_to_approved config repository n w1) = inr tt /\
     exists i1 i2,
       find_issue org repository n (issues w1) = Some i1 /\
       find_issue org repository n (issues w2) = Some i2 /\
       i2 = i1 /\ label_set i2 = label_set i1 /\
       label_set i1 = list_to_set approved_labels).
Proof.
  intros H0 H1. cbv zeta.
  destruct (find_issue (GITHUB_ORG config) repository n (issues w)) as [i|] eqn:Hi.
  - rewrite (advance_to_approved_found _ _ _ _ i H0 Hi). cbn [fst snd].
    set (w1 := set_issues _ _).
    assert (F1 : fault w1 (length (log w1)) = None)
      by (subst w1; cbn [fault set_issues log]; rewrite length_log_record; exact H1).
    assert (Hi1 : find_issue (GITHUB_ORG config) repository n (issues w1)
                  = Some (set_labels approved_labels i))
      by (subst w1; cbn [issues set_issues]; now rewrite lookup_relabel, Hi).
    rewrite (advance_to_approved_found _ _ _ w1 _ F1 Hi1).
    cbn [fst snd issues set_issues]. subst w1. cbn [issues set_issues].
    rewrite relabel_idem.
    split; [reflexivity|]. split; [reflexivity|].
    intros i' [= <-]. split; [reflexivity|]. split; [reflexivity|].
    exists (set_labels approved_labels i), (set_labels approved_labels i).
    rewrite lookup_relabel, Hi. repeat split; reflexivity.
  - rewrite (advance_to_approved_missing _ _ _ _ H0 Hi). cbn [fst snd].
    set (w1 := record _ w).
    assert (F1 : fault w1 (length (log w1)) = None)
      by (subst w1; cbn [fault record]; rewrite length_log_record; exact H1).
    rewrite (advance_to_approved_missing _ _ _ w1 F1 Hi).
    cbn [fst snd]. split; [reflexivity|]. split; [reflexivity|].
    intros i' [=].
Qed.

Lemma advance_to_approved_idempotent_witness :
  let w1 := snd (advance_to_approved Samples.cfg "sa-template" 7 Samples.one_match) in
  let w2 := snd (advance_to_approved Samples.cfg "sa-template" 7 w1) in
  issues w2 = issues w1 /\
  fst (advance_to_approved Samples.cfg "sa-template" 7 w1) = inr tt.
Proof.
  destruct (advance_to_approved_idempotent Samples.cfg "sa-template" 7
              Samples.one_match eq_refl eq_refl) as (H & _ & H').
  split; [exact H|].
  destruct (H' (Samples.pending 7)) as (_ & H2 & _); [reflexivity | exact H2].
Defined.

(** C10.  The label update of the approval step replaces the label set of
    the issue by the five approval labels, whatever labels it had: the
    kind label ([bug] or [enhancement]) and the [client-request] and
    [auto-generated] markers are gone; title, body, state and comments
    stay. *)
Theorem approval_replaces_label_set (config : Config) (repository : string)
    (n : Z) (w : World) (i : Issue) :
  fault w (length (log w)) = None ->
  find_issue (GITHUB_ORG config) repository n (issues w) = Some i ->
  let w1 := snd (advance_to_approved config repository n w) in
  fst (advance_to_approved config repository n w) = inr tt /\
  exists i1,
    find_issue (GITHUB_ORG config) repository n (issues w1) = Some i1 /\
    i_labels i1
      = ["amazon-q"; "approved"; "amazon-q-ready"; "help-wanted"; "good-first-issue"] /\
    label_set i1
      = {["amazon-q"; "approved"; "amazon-q-ready"; "help-wanted"; "good-first-issue"]} /\
    ("bug" ∉ label_set i1) /\ ("enhancement" ∉ label_set i1) /\
    ("client-request" ∉ label_set i1) /\ ("auto-generated" ∉ label_set i1) /\
    i_title i1 = i_title i /\ i_body i1 = i_body i /\ i_open i1 = i_open i /\
    i_comments i1 = i_comments i.
Proof.
  intros H0 Hi. cbv zeta.
  rewrite (advance_to_approved_found _ _ _ _ i H0 Hi). cbn [fst snd issues set_issues].
  split; [reflexivity|].
  exists (set_labels approved_labels i). rewrite lookup_relabel, Hi.
  split; [reflexivity|]. split; [reflexivity|].
  assert (E : label_set (set_labels approved_labels i)
              = {["amazon-q"; "approved"; "amazon-q-ready"; "help-wanted";
                  "good-first-issue"]})
    by (unfold label_set; cbn; set_solver).
  split; [exact E|]. rewrite E.
  repeat split; try reflexivity; set_solver.
Qed.

Lemma approval_replaces_label_set_witness :
  i_labels (Samples.pending 7)
    = ["amazon-q"; "client-request"; "auto-generated"; "bug"] /\
  exists i1,
    find_issue "datan8" "sa-template" 7
      (issues (snd (advance_to_approved Samples.cfg "sa-template" 7 Samples.one_match)))
      = Some i1 /\
    i_labels i1
      = ["amazon-q"; "approved"; "amazon-q-ready"; "help-wanted"; "good-first-issue"] /\
    ("bug" ∉ label_set i1).
Proof.
  split; [reflexivity|].
  destruct (approval_replaces_label_set Samples.cfg "sa-template" 7 Samples.one_match
              (Samples.pending 7) eq_refl eq_refl)
    as (_ & i1 & H1 & H2 & _ & H3 & _).
  exists i1. auto.
Defined.

(** ** Classification, issue creation and the approval mail *)

Ltac contains_chain :=
  repeat first
    [ apply contains_head
    | apply contains_refl
    | apply contains_skip ].

Ltac contains_literal :=
  repeat first
    [ solve [apply contains_app_l; vm_compute; reflexivity]
    | apply contains_skip ].

Section Steps.

Variables (config : Config) (w : World).

Lemma classify_fault email_content msg :
  fault w (length (log w)) = Some msg ->
  classify_email_content config email_content w
  = (inr "neither",
     record (ChatCompletion (OPENAI_MODEL config) (classification_prompt email_content),
             false) w).
Proof.
  intros H. unfold classify_email_content.
  erewrite try_raise; [reflexivity|].
  erewrite bind_raise; [reflexivity|]. apply http_fault. exact H.
Qed.

Lemma classify_answered email_content :
  fault w (length (log w)) = None ->
  classify_email_content config email_content w
  = (inr (strip (llm w (classification_prompt email_content))),
     record (ChatCompletion (OPENAI_MODEL config) (classification_prompt email_content),
             true) w).
Proof.
  intros H. unfold classify_email_content.
  erewrite try_ok; [reflexivity|].
  erewrite bind_ok; [|apply http_ok; [exact H | reflexivity]].
  reflexivity.
Qed.

Lemma create_github_issue_fault issue_type title description repository
    website_url account_id approval_token msg :
  fault w (length (log w)) = Some msg ->
  create_github_issue config issue_type title description repository website_url
    account_id approval_token w
  = (inr None,
     record (CreateIssue (GITHUB_ORG config) repository title
               (issue_body issue_type description website_url account_id
                  approval_token (strftime_long (clock w (ticks w)) +:+ " UTC"))
               (issue_labels issue_type), false) (tick w)).
Proof.
  intros H. unfold create_github_issue.
  erewrite bind_ok; [|reflexivity].
  erewrite try_raise; [reflexivity|].
  erewrite bind_raise; [reflexivity|]. apply http_fault. exact H.
Qed.

Lemma create_github_issue_answered issue_type title description repository
    website_url account_id approval_token :
  fault w (length (log w)) = None ->
  let body := issue_body issue_type description website_url account_id
                approval_token (strftime_long (clock w (ticks w)) +:+ " UTC") in
  let labels := issue_labels issue_type in
  let issue := mkIssue (GITHUB_ORG config) repository
                 (next_number (GITHUB_ORG config) repository (issues w))
                 (1 + Z.of_nat (length (issues w))) title body labels true [] in
  create_github_issue config issue_type title description repository website_url
    account_id approval_token w
  = (inr (Some (mkIssueRef (i_number issue) (html_url issue) (i_id issue))),
     set_issues (issues w ++ [issue])
       (record (CreateIssue (GITHUB_ORG config) repository title body labels, true)
               (tick w))).
Proof.
  intros H. cbv zeta. unfold create_github_issue.
  erewrite bind_ok; [|reflexivity].
  erewrite try_ok; [reflexivity|].
  erewrite bind_ok; [|apply http_ok; [exact H | reflexivity]].
  reflexivity.
Qed.

Lemma send_confirmation_email_run client_email content_summary approve_link
    reject_link approval_token :
  let mail := confirmation_mail config client_email content_summary approve_link
                reject_link approval_token
                (strftime_long (clock w (ticks w)) +:+ " UTC") in
  let sent := match fault w (length (log w)) with None => true | Some _ => false end in
  send_confirmation_email config client_email content_summary approve_link
    reject_link approval_token w
  = (inr sent, record (mail, sent) (tick w)).
Proof.
  cbv zeta. unfold send_confirmation_email.
  erewrite bind_ok; [|reflexivity].
  destruct (fault w (length (log w))) as [msg|] eqn:H.
  - erewrite try_raise; [reflexivity|].
    erewrite bind_raise; [reflexivity|]. apply http_fault. exact H.
  - erewrite try_ok; [reflexivity|].
    erewrite bind_ok; [|apply http_ok; [exact H | reflexivity]].
    reflexivity.
Qed.

End Steps.

Lemma issue_body_contents issue_type description website_url account_id
    approval_token current_time :
  let body := issue_body issue_type description website_url account_id
                approval_token current_time in
  contains body approval_token = true /\
  contains body "**Status:** Pending Client Approval" = true /\
  contains body website_url = true /\
  contains body account_id = true /\
  contains body description = true.
Proof.
  cbv zeta. unfold issue_body. repeat split; try solve [contains_chain].
  contains_literal.
Qed.





(** C9.  The message [send_confirmation_email] posts carries a plain-text
    and an HTML representation that both contain the approve link, the
    reject link and the approval token, and has click tracking and open
    tracking switched off. *)
Theorem approval_mail_carries_links_and_token (config : Config)
    (client_email content_summary approve_link reject_link approval_token : string)
    (w : World) :
  exists subject text html ok,
    issued w (snd (send_confirmation_email config client_email content_summary
                     approve_link reject_link approval_token w))
    = [(MailSend client_email (EMAIL_FROM config) subject text html false false, ok)] /\
    contains text approve_link = true /\
    contains text reject_link = true /\
    contains text approval_token = true /\
    contains html approve_link = true /\
    contains html reject_link = true /\
    contains html approval_token = true /\
    contains subject approval_token = true.
Proof.
  rewrite send_confirmation_email_run. cbv zeta. unfold confirmation_mail.
  do 4 eexists. split; [now apply issued_app|].
  unfold text_content, html_content. repeat split; contains_chain.
Qed.

(** ** The workflow *)

Lemma approval_frame config approval_token repository w :
  exists r w' seg,
    simulate_approval_and_trigger_amazon_q config approval_token repository w
      = (inr r, w') /\
    draws w' = draws w /\ log w' = log w ++ seg.
Proof.
  destruct (fault w (length (log w))) as [msg|] eqn:H0.
  { rewrite (approval_search_fault _ _ _ _ msg H0). eauto 6. }
  destruct (open_matches (GITHUB_ORG config) repository approval_token w)
    as [|i rest] eqn:E.
  { rewrite (approval_not_found _ _ _ _ H0 E). eauto 6. }
  destruct (fault w (S (length (log w)))) as [msg|] eqn:H1.
  { rewrite (approval_update_fault _ _ _ _ i rest msg H0 E H1).
    do 3 eexists. split; [reflexivity|]. split; [reflexivity|].
    cbn. now rewrite <- app_assoc. }
  destruct (fault w (S (S (length (log w))))) as [msg|] eqn:H2.
  - rewrite (approval_comment_fault _ _ _ _ i rest msg H0 E H1 H2).
    do 3 eexists. split; [reflexivity|]. split; [reflexivity|].
    cbn. now rewrite <- !app_assoc.
  - rewrite (approval_done _ _ _ _ i rest H0 E H1 H2).
    do 3 eexists. split; [reflexivity|]. split; [reflexivity|].
    cbn. now rewrite <- !app_assoc.
Qed.

Section Process.

Variables (config : Config) (td : TestData) (w : World).

#[local] Abbreviation chat :=
  (ChatCompletion (OPENAI_MODEL config) (classification_prompt (email_content td))).

Lemma classify_total :
  exists c ok,
    classify_email_content config (email_content td) w
    = (inr c, record (chat, ok) w).
Proof.
  destruct (fault w (length (log w))) as [msg|] eqn:H.
  - rewrite (classify_fault _ _ _ msg H). eauto.
  - rewrite (classify_answered _ _ _ H). eauto.
Qed.

Lemma process_skipped :
  fst (classify_email_content config (email_content td) w) = inr "neither" ->
  exists ok, process config td w = (inr Skipped, record (chat, ok) w).
Proof.
  destruct classify_total as (c & ok & E). rewrite E. cbn [fst]. intros [= ->].
  exists ok. unfold process. erewrite bind_ok; [|exact E]. reflexivity.
Qed.

Lemma process_invalid_format :
  fault w (length (log w)) = None ->
  strip (llm w (classification_prompt (email_content td))) <> "neither" ->
  cut ": " (strip (llm w (classification_prompt (email_content td)))) = None ->
  process config td w = (inr InvalidFormat, record (chat, true) w).
Proof.
  intros H Hn Hc. unfold process.
  erewrite bind_ok; [|apply classify_answered, H].
  apply String.eqb_neq in Hn. rewrite Hn. unfold split1. rewrite Hc. reflexivity.
Qed.

Lemma process_classified tag rest :
  fault w (length (log w)) = None ->
  strip (llm w (classification_prompt (email_content td))) <> "neither" ->
  cut ": " (strip (llm w (classification_prompt (email_content td))))
    = Some (tag, rest) ->
  exists out w' ok more,
    process config td w = (inr out, w') /\
    out <> Skipped /\ out <> InvalidFormat /\
    draws w' = S (draws w) /\
    issued w w'
    = (chat, true)
      :: (CreateIssue (GITHUB_ORG config) "sa-template" (strip rest)
            (issue_body (strip tag) (email_content td) "https://example.com"
               "test-account-001"
               (token_text (clock w (ticks w))
                  (str_int (1000 + entropy w (draws w) mod 9000)))
               (strftime_long (clock w (S (ticks w))) +:+ " UTC"))
            (issue_labels (strip tag)), ok)
      :: more.
Proof.
  intros H Hn Hc. unfold process.
  erewrite bind_ok; [|apply classify_answered, H].
  apply String.eqb_neq in Hn. rewrite Hn. unfold split1. rewrite Hc.
  erewrite bind_ok; [|apply generate_approval_token_run].
  set (w1 := draw (tick (record (chat, true) w))).
  assert (L1 : log w1 = log w ++ [(chat, true)]) by reflexivity.
  destruct (fault w1 (length (log w1))) as [msg|] eqn:F1.
  { erewrite bind_ok; [|apply (create_github_issue_fault _ _ _ _ _ _ _ _ _ msg F1)].
    do 4 eexists. split; [reflexivity|]. split; [discriminate|]. split; [discriminate|].
    split; [reflexivity|]. apply issued_app. cbn. rewrite <- app_assoc. reflexivity. }
  erewrite bind_ok; [|apply (create_github_issue_answered _ _ _ _ _ _ _ _ _ F1)].
  cbv beta iota zeta. set (w2 := set_issues _ _).
  erewrite bind_ok; [|apply send_confirmation_email_run].
  cbv beta iota zeta.
  destruct (fault w2 (length (log w2))) as [msg|] eqn:F2.
  { do 4 eexists. split; [reflexivity|]. split; [discriminate|]. split; [discriminate|].
    split; [reflexivity|]. apply issued_app. subst w2 w1. cbn.
    rewrite <- !app_assoc. reflexivity. }
  set (w3 := record _ (tick w2)).
  destruct (approval_frame config
              (token_text (clock w (ticks w))
                 (str_int (1000 + entropy w (draws w) mod 9000)))
              "sa-template" w3) as (r & w' & seg & Er & Dr & Lr).
  erewrite bind_ok; [|exact Er].
  do 4 eexists. split; [reflexivity|]. split; [discriminate|]. split; [discriminate|].
  split; [rewrite Dr; reflexivity|].
  apply issued_app. rewrite Lr. subst w3 w2 w1. cbn. rewrite <- !app_assoc. reflexivity.
Qed.

End Process.

(** C2.  A failing call to the chat model is classified ["neither"], and
    on the classification ["neither"] the workflow stops at once: no token
    is generated (the clock and the random source are not consulted), the
    tracker is unchanged, and the only request issued is the
    classification itself: no issue creation, no mail, no approval. *)
Theorem neither_stops_before_any_side_effect (config : Config) (td : TestData)
    (w : World) :
  let chat := ChatCompletion (OPENAI_MODEL config)
                (classification_prompt (email_content td)) in
  let w' := snd (process config td w) in
  (forall msg, fault w (length (log w)) = Some msg ->
     fst (classify_email_content config (email_content td) w) = inr "neither") /\
  (fst (classify_email_content config (email_content td) w) = inr "neither" ->
     fst (process config td w) = inr Skipped /\
     issues w' = issues w /\ ticks w' = ticks w /\ draws w' = draws w /\
     (exists ok, issued w w' = [(chat, ok)]) /\
     (forall e, In e (issued w w') -> is_side_effect e.1 = false)).
Proof.
  cbv zeta. split.
  - intros msg H. now rewrite (classify_fault _ _ _ msg H).
  - intros H. destruct (process_skipped config td w H) as [ok E]. rewrite E.
    cbn [fst snd]. rewrite issued_1.
    repeat split; eauto.
    intros e [<-|[]]. reflexivity.
Qed.

Lemma neither_stops_before_any_side_effect_witness :
  fst (main Samples.cfg (Samples.offline "bug: Contact page returns 404")) = inr Skipped /\
  issues (snd (main Samples.cfg (Samples.offline "bug: Contact page returns 404"))) = [] /\
  fst (main Samples.cfg (Samples.quiet " neither ")) = inr Skipped.
Proof.
  destruct (neither_stops_before_any_side_effect Samples.cfg test_data
              (Samples.offline "bug: Contact page returns 404")) as [Hf Hs].
  destruct (Hs (Hf "ConnectionError" eq_refl)) as (H1 & H2 & _).
  destruct (neither_stops_before_any_side_effect Samples.cfg test_data
              (Samples.quiet " neither ")) as [_ Hq].
  destruct (Hq eq_refl) as (H3 & _).
  auto.
Defined.

(** C7, as stated, fails: on the reply [question: where is my invoice],
    whose tag is neither [bug] nor [feature], the workflow does not abort;
    it generates a token and creates an issue, with no kind label.  And
    the summary is not taken from the first line alone: on a reply of two
    lines the title of the issue runs over both. *)
Lemma other_tag_still_creates_issue :
  (exists body,
     fst (main Samples.cfg (Samples.quiet "question: where is my invoice"))
       = inr (Completed
                (mkIssueRef 1 "https://github.com/datan8/sa-template/issues/1" 1)
                "APPR-20240307090501-7456"
                (ApprovalOk 1 "https://github.com/datan8/sa-template/issues/1")) /\
     issued (Samples.quiet "question: where is my invoice")
            (snd (main Samples.cfg (Samples.quiet "question: where is my invoice")))
       !! 1%nat
     = Some (CreateIssue "datan8" "sa-template" "where is my invoice" body
               ["amazon-q"; "client-request"; "auto-generated"], true)) /\
  (exists body,
     issued (Samples.quiet ("bug: Contact page is broken" +:+ nl +:+ "Thanks"))
            (snd (main Samples.cfg
                    (Samples.quiet ("bug: Contact page is broken" +:+ nl +:+ "Thanks"))))
       !! 1%nat
     = Some (CreateIssue "datan8" "sa-template"
               ("Contact page is broken" +:+ nl +:+ "Thanks") body
               ["amazon-q"; "client-request"; "auto-generated"; "bug"], true)).
Proof.
  split; eexists; [split|]; vm_compute; reflexivity.
Qed.

(** C7 (amended).  The workflow cuts the whole stripped reply at its first
    [": "].  A reply other than ["neither"] without that separator stops
    the workflow with no token and no issue.  Otherwise the part before the
    separator, stripped, is the tag and the rest, stripped, is the
    summary; a token is generated and an issue is requested with the
    summary as title, whatever the tag.  The tag only selects the kind
    label, compared without regard to case: [bug] gives [bug], [feature]
    gives [enhancement], any other tag gives no kind label. *)
Theorem classification_is_cut_at_first_separator (config : Config) (td : TestData)
    (w : World) :
  fault w (length (log w)) = None ->
  let chat := ChatCompletion (OPENAI_MODEL config)
                (classification_prompt (email_content td)) in
  let reply := strip (llm w (classification_prompt (email_content td))) in
  let w' := snd (process config td w) in
  (reply <> "neither" -> cut ": " reply = None ->
     fst (process config td w) = inr InvalidFormat /\
     issues w' = issues w /\ ticks w' = ticks w /\ draws w' = draws w /\
     issued w w' = [(chat, true)]) /\
  (forall tag rest,
     reply <> "neither" -> cut ": " reply = Some (tag, rest) ->
     (exists out, fst (process config td w) = inr out /\
                  out <> Skipped /\ out <> InvalidFormat) /\
     draws w' = S (draws w) /\
     exists body ok more,
       issued w w'
       = (chat, true)
         :: (CreateIssue (GITHUB_ORG config) "sa-template" (strip rest) body
               (issue_labels (strip tag)), ok)
         :: more) /\
  (forall t,
     issue_labels t
     = ["amazon-q"; "client-request"; "auto-generated"]
       ++ (if String.eqb (lower t) "bug" then ["bug"]
           else if String.eqb (lower t) "feature" then ["enhancement"]
           else [])).
Proof.
  intros H. cbv zeta. split; [|split].
  - intros Hn Hc. rewrite (process_invalid_format config td w H Hn Hc).
    cbn [fst snd]. rewrite issued_1. repeat split.
  - intros tag rest Hn Hc.
    destruct (process_classified config td w tag rest H Hn Hc)
      as (out & w' & ok & more & E & N1 & N2 & D & L).
    rewrite E. cbn [fst snd]. split; [eauto|]. split; [exact D|]. eauto.
  - intros t. unfold issue_labels.
    destruct (String.eqb (lower t) "bug"); [reflexivity|].
    destruct (String.eqb (lower t) "feature"); [reflexivity|].
    now rewrite app_nil_r.
Qed.

(** The theorem at work: a tag in capitals, a reply without separator,
    and a tag followed by a no-break space (U+00A0), which is stripped
    with the rest of the white space. *)
Lemma classification_is_cut_at_first_separator_witness :
  (exists out,
     fst (main Samples.cfg (Samples.quiet "FEATURE: Add dark mode toggle")) = inr out /\
     out <> Skipped /\ out <> InvalidFormat) /\
  fst (main Samples.cfg (Samples.quiet "Neither.")) = inr InvalidFormat /\
  (exists body ok more,
     issued (Samples.quiet "bug : Contact page returns 404")
            (snd (main Samples.cfg
                    (Samples.quiet "bug : Contact page returns 404")))
     = (ChatCompletion "gpt-4" (classification_prompt (email_content test_data)), true)
       :: (CreateIssue "datan8" "sa-template" "Contact page returns 404" body
             ["amazon-q"; "client-request"; "auto-generated"; "bug"], ok)
       :: more).
Proof.
  split; [|split].
  - destruct (classification_is_cut_at_first_separator Samples.cfg test_data
                (Samples.quiet "FEATURE: Add dark mode toggle") eq_refl)
      as (_ & H & _).
    destruct (H "FEATURE" "Add dark mode toggle") as (H' & _);
      [vm_compute; discriminate | vm_compute; reflexivity | exact H'].
  - destruct (classification_is_cut_at_first_separator Samples.cfg test_data
                (Samples.quiet "Neither.") eq_refl) as (H & _).
    destruct H as (H' & _);
      [vm_compute; discriminate | vm_compute; reflexivity | exact H'].
  - destruct (classification_is_cut_at_first_separator Samples.cfg test_data
                (Samples.quiet "bug : Contact page returns 404") eq_refl)
      as (_ & H & _).
    destruct (H "bug " "Contact page returns 404")
      as (_ & _ & body & ok & more & E);
      [vm_compute; discriminate | vm_compute; reflexivity |].
    exists body, ok, more. exact E.
Defined.

(** A reply [neither] followed by a no-break space is stripped to
    ["neither"] and skipped like the plain one. *)
Example neither_with_no_break_space :
  fst (main Samples.cfg (Samples.quiet "neither ")) = inr Skipped.
Proof. vm_compute. reflexivity. Qed.

(** * Further properties *)

(** ** Percent-encoding and repository names *)

Section UrlFacts.

#[local] Arguments String.append !_ _ / : simpl nomatch.

Example quote_email : Url.quote "john+x@datan8.com" = "john%2Bx%40datan8.com".
Proof. reflexivity. Qed.

Example replace_www : Url.replace "." "-" (Url.replace "www." "" "www.example.co.uk")
                      = "example-co-uk".
Proof. reflexivity. Qed.

Lemma percent_hex c :
  Url.is_hex (Url.hex_digit (code c / 16)) = true /\
  Url.is_hex (Url.hex_digit (code c mod 16)) = true.
Proof. destruct c as [[] [] [] [] [] [] [] []]; split; reflexivity. Qed.

Lemma safe_not_percent c : Url.is_safe c = true -> Ascii.eqb c "%" = false.
Proof.
  intros H. destruct (Ascii.eqb c "%") eqn:E; [|reflexivity].
  apply Ascii.eqb_eq in E. subst c. discriminate H.
Qed.

Lemma has_char_cons c x s :
  Url.has_char c (String x s) = Ascii.eqb x c || Url.has_char c s.
Proof. reflexivity. Qed.

Lemma has_char_app c a b :
  Url.has_char c (a +:+ b) = Url.has_char c a || Url.has_char c b.
Proof.
  induction a as [|x a IH]; [reflexivity|].
  cbn [String.append]. rewrite !has_char_cons, IH. apply orb_assoc.
Qed.

Lemma hex_digit_safe n : (n < 16)%nat -> Url.is_safe (Url.hex_digit n) = true.
Proof.
  intros H. do 16 (destruct n as [|n]; [reflexivity|]). lia.
Qed.

Lemma code_bound c : (code c < 256)%nat.
Proof. destruct c as [[] [] [] [] [] [] [] []]; vm_compute; lia. Qed.

Lemma quote_chars c s :
  Url.has_char c (Url.quote s) = true -> Url.is_safe c = true \/ c = "%"%char.
Proof.
  induction s as [|x s IH]; cbn [Url.quote]; [discriminate|].
  pose proof (code_bound x) as Hb.
  destruct (Url.is_safe x) eqn:Hx.
  - rewrite has_char_cons. intros H. apply orb_true_iff in H as [H|H]; [|auto].
    apply Ascii.eqb_eq in H. subst. auto.
  - unfold Url.percent. cbn [String.append]. rewrite !has_char_cons.
    intros H. repeat (apply orb_true_iff in H as [H|H]); auto.
    + apply Ascii.eqb_eq in H. now right.
    + apply Ascii.eqb_eq in H. subst c. left. apply hex_digit_safe.
      apply Nat.Div0.div_lt_upper_bound. lia.
    + apply Ascii.eqb_eq in H. subst c. left. apply hex_digit_safe.
      apply Nat.mod_upper_bound. lia.
Qed.

(** X1.  Whatever the client address, its percent-encoding is well
    formed (every [%] is followed by two upper-case hexadecimal digits,
    every other character is one that needs no encoding), so the lookup
    address carries no [&], [=], [?], [#], [@], [+] or space of the
    client's making: the query keeps its single [email] parameter. *)
Theorem quote_is_well_formed (client_email : string) :
  Url.well_quoted (Url.quote client_email) = true /\
  (forall c, Url.has_char c (Url.quote client_email) = true ->
             Url.is_safe c = true \/ c = "%"%char) /\
  Forall (fun c => Url.has_char c (Url.quote client_email) = false)
         ["&"; "="; "?"; "#"; "@"; "+"; " "]%char /\
  lookup_url client_email
    = "https://rest.gohighlevel.com/v1/contacts/lookup?email="
      +:+ Url.quote client_email.
Proof.
  split; [|split; [intros c; apply quote_chars|split; [|reflexivity]]].
  - induction client_email as [|x s IH]; [reflexivity|]. cbn [Url.quote].
    destruct (Url.is_safe x) eqn:Hx.
    + cbn [Url.well_quoted]. now rewrite (safe_not_percent x Hx), Hx, IH.
    + unfold Url.percent. cbn [String.append Url.well_quoted].
      rewrite Ascii.eqb_refl.
      destruct (percent_hex x) as [-> ->]. exact IH.
  - repeat constructor;
      (destruct (Url.has_char _ _) eqn:E; [|reflexivity];
       apply quote_chars in E as [E|E]; discriminate E).
Qed.

Lemma quote_safe_id s :
  (forall c, Url.has_char c s = true -> Url.is_safe c = true) -> Url.quote s = s.
Proof.
  induction s as [|x s IH]; intros H; [reflexivity|]. cbn [Url.quote].
  rewrite (H x) by (rewrite has_char_cons; now rewrite Ascii.eqb_refl).
  f_equal. apply IH. intros c Hc. apply H. rewrite has_char_cons, Hc.
  apply orb_true_r.
Qed.

Lemma digits_are_safe s c :
  all_digits s = true -> Url.has_char c s = true -> Url.is_safe c = true.
Proof.
  induction s as [|x s IH]; [discriminate|].
  cbn [all_digits]. rewrite has_char_cons.
  intros H Hc. apply andb_true_iff in H as [Hx Hs].
  apply orb_true_iff in Hc as [Hc|Hc]; [|now apply IH].
  apply Ascii.eqb_eq in Hc. subst c. unfold Url.is_safe. rewrite Hx.
  now rewrite !orb_true_r.
Qed.

(** X2.  A generated token is 24 characters long and made of characters
    that need no percent-encoding, so placing it unescaped in the query of
    the approve and reject links does not alter the links. *)
Theorem token_needs_no_encoding (w : World) (t : string) :
  valid_datetime (clock w (ticks w)) ->
  fst (generate_approval_token w) = inr t ->
  String.length t = 24%nat /\
  (forall c, Url.has_char c t = true -> Url.is_safe c = true) /\
  Url.quote t = t.
Proof.
  intros Hd. rewrite generate_approval_token_run. cbn [fst]. intros [= <-].
  destruct (strftime_compact_shape _ Hd) as (L & D & _).
  destruct (random_suffix_shape (entropy w (draws w))) as (L' & D' & _).
  assert (S : forall c, Url.has_char c
                (token_text (clock w (ticks w))
                   (str_int (1000 + entropy w (draws w) mod 9000))) = true ->
              Url.is_safe c = true).
  { unfold token_text. intros c. rewrite !has_char_app, !orb_true_iff.
    intros [H|[H|[H|H]]]; eauto using digits_are_safe.
    - rewrite !has_char_cons in H.
      repeat (apply orb_true_iff in H as [H|H];
              [apply Ascii.eqb_eq in H; subst c; reflexivity|]).
      discriminate H.
    - rewrite has_char_cons in H. apply orb_true_iff in H as [H|H]; [|discriminate H].
      apply Ascii.eqb_eq in H. subst c. reflexivity. }
  split; [|split; [exact S | apply quote_safe_id, S]].
  unfold token_text. rewrite !strlen_app, L, L'. reflexivity.
Qed.

Lemma token_needs_no_encoding_witness :
  Url.quote Samples.tok = Samples.tok.
Proof.
  apply (token_needs_no_encoding (Samples.quiet "") Samples.tok).
  - unfold valid_datetime. simpl. lia.
  - reflexivity.
Defined.

Lemma replace_dot_no_dot s : Url.has_char "." (Url.replace "." "-" s) = false.
Proof.
  unfold Url.replace. induction s as [|x s IH]; [reflexivity|].
  cbn [Url.replace_from String.prefix String.length Nat.sub].
  destruct (ascii_dec "." x) as [<-|Hne].
  - replace (String.prefix "" s) with true by (destruct s; reflexivity).
    cbn [String.append]. rewrite has_char_cons, IH. reflexivity.
  - rewrite has_char_cons, IH, orb_false_r.
    apply Ascii.eqb_neq. congruence.
Qed.

(** X3.  The repository name derived from a website address is the host
    with every [www.] removed and every dot turned into a dash, so it
    holds no dot; in particular an address whose host reads as empty
    yields the empty name.  The account-based name [client-<id>] is used
    when there is no address, when it is empty, or when reading it
    raises. *)
Theorem get_client_repository_cases (netloc : string -> string + string)
    (account_id : string) (website_url : option string) :
  (truthy website_url = false ->
     get_client_repository netloc account_id website_url
     = "client-" +:+ account_id) /\
  (forall url e, website_url = Some url -> netloc url = inl e ->
     get_client_repository netloc account_id website_url
     = "client-" +:+ account_id) /\
  (forall url host, website_url = Some url -> truthy website_url = true ->
     netloc url = inr host ->
     get_client_repository netloc account_id website_url
       = Url.replace "." "-" (Url.replace "www." "" host) /\
     Url.has_char "." (get_client_repository netloc account_id website_url) = false /\
     (host = "" -> get_client_repository netloc account_id website_url = "")).
Proof.
  unfold get_client_repository. repeat split.
  - intros H. destruct website_url as [url|]; [now rewrite H | reflexivity].
  - intros url e -> H. rewrite H. now destruct (truthy (Some url)).
  - subst. now rewrite H0, H1.
  - subst. rewrite H0, H1. apply replace_dot_no_dot.
  - intros ->. subst. now rewrite H0, H1.
Qed.

Lemma get_client_repository_cases_witness :
  get_client_repository Fixtures.simple_netloc "acc-17"
    (Some "https://www.acme.example.com/home") = "acme-example-com" /\
  get_client_repository Fixtures.simple_netloc "acc-17" (Some "acme.example.com") = "" /\
  get_client_repository Fixtures.simple_netloc "acc-17" (Some "") = "client-acc-17".
Proof.
  destruct (get_client_repository_cases Fixtures.simple_netloc "acc-17"
              (Some "https://www.acme.example.com/home")) as (_ & _ & H1).
  destruct (H1 _ "www.acme.example.com" eq_refl eq_refl eq_refl) as (E1 & _ & _).
  destruct (get_client_repository_cases Fixtures.simple_netloc "acc-17"
              (Some "acme.example.com")) as (_ & _ & H2).
  destruct (H2 _ "" eq_refl eq_refl eq_refl) as (_ & _ & E2).
  destruct (get_client_repository_cases Fixtures.simple_netloc "acc-17" (Some ""))
    as (E3 & _).
  split; [exact E1|]. split; [exact (E2 eq_refl) | exact (E3 eq_refl)].
Defined.

End UrlFacts.

(** ** The client account *)

Section AccountFacts.

Variable lookup : string -> string -> string + list Contact.

(** The fields the loop passes over: a name that is absent, or a string
    that does not mention a website. *)
#[local] Abbreviation passed_over :=
  (fun g : CustomField =>
     match f_name g with
     | NameMissing => True
     | NameStr n => mentions_website n = false
     | NameNull => False
     end).

Lemma website_field_skip pre rest :
  Forall passed_over pre -> website_field (pre ++ rest) = website_field rest.
Proof.
  induction 1 as [|g pre Hg _ IH]; [reflexivity|].
  cbn [app website_field]. destruct (f_name g) as [| |n]; [exact IH | contradiction|].
  now rewrite Hg.
Qed.

(** X4.  The website of an account is the value of the first custom field
    whose name mentions [website] or [url], in any case; when that value
    is absent or empty, or when no field qualifies, it is the [website]
    key of the contact.  Fields after the first qualifying one are never
    read, and only the first contact of the answer is used. *)
Theorem find_client_account_website (key client_email id : string)
    (contact : Contact) (others : list Contact) :
  lookup key (lookup_url client_email) = inr (contact :: others) ->
  c_id contact = Some id ->
  (forall pre f post name,
     c_customFields contact = pre ++ f :: post ->
     Forall passed_over pre ->
     f_name f = NameStr name -> mentions_website name = true ->
     find_client_account lookup key client_email
     = Some (mkAccountInfo id
               (if truthy (f_value f) then f_value f else c_website contact)
               contact)) /\
  (Forall passed_over (c_customFields contact) ->
     find_client_account lookup key client_email
     = Some (mkAccountInfo id (c_website contact) contact)).
Proof.
  intros Hl Hid. unfold find_client_account. rewrite Hl, Hid. split.
  - intros pre f post name -> Hpre Hn Hm.
    rewrite (website_field_skip _ _ Hpre). cbn [website_field].
    now rewrite Hn, Hm.
  - intros Hall.
    rewrite <- (app_nil_r (c_customFields contact)).
    rewrite (website_field_skip _ _ Hall). reflexivity.
Qed.

(** X5.  The account lookup reports no account, and raises nothing, when
    the request fails, when the answer has no contact, when the first
    contact has no [id], and when a custom field with a [null] name comes
    before any field that mentions a website. *)
Theorem find_client_account_none (key client_email : string) :
  (forall e, lookup key (lookup_url client_email) = inl e ->
     find_client_account lookup key client_email = None) /\
  (lookup key (lookup_url client_email) = inr [] ->
     find_client_account lookup key client_email = None) /\
  (forall contact others,
     lookup key (lookup_url client_email) = inr (contact :: others) ->
     c_id contact = None ->
     find_client_account lookup key client_email = None) /\
  (forall contact others pre f post,
     lookup key (lookup_url client_email) = inr (contact :: others) ->
     c_customFields contact = pre ++ f :: post ->
     Forall passed_over pre -> f_name f = NameNull ->
     find_client_account lookup key client_email = None).
Proof.
  unfold find_client_account. repeat split.
  - now intros e ->.
  - now intros ->.
  - now intros contact others -> ->.
  - intros contact others pre f post -> -> Hpre Hf.
    rewrite (website_field_skip _ _ Hpre). cbn [website_field]. rewrite Hf.
    now destruct (c_id contact).
Qed.

End AccountFacts.

Lemma find_client_account_website_witness :
  option_map WebsiteUrl
    (find_client_account Fixtures.directory "key" "jo@acme.example.com")
  = Some (Some "https://www.acme.example.com/home").
Proof.
  destruct (find_client_account_website Fixtures.directory "key"
              "jo@acme.example.com" "acc-17" Fixtures.acme [] eq_refl eq_refl)
    as [H _].
  rewrite (H [mkField (NameStr "Phone") (Some "555-0100")]
             (mkField (NameStr "Company Website")
                      (Some "https://www.acme.example.com/home"))
             [mkField (NameStr "Backup URL") (Some "https://old.acme.example.com")]
             "Company Website" eq_refl
             ltac:(repeat constructor) eq_refl eq_refl).
  reflexivity.
Defined.

Lemma find_client_account_none_witness :
  find_client_account Fixtures.directory "key" "nobody@example.com" = None.
Proof.
  destruct (find_client_account_none Fixtures.directory "key" "nobody@example.com")
    as (_ & H & _).
  apply H. reflexivity.
Defined.

(** ** The demo *)

Section LowerFacts.

#[local] Arguments String.append !_ _ / : simpl nomatch.

Lemma lower_char_ascii c : (code (lower_char c) < 128)%nat -> (code c < 128)%nat.
Proof.
  unfold lower_char, is_upper. destruct (_ && _) eqn:E; [|auto].
  intros _. apply andb_true_iff in E as [_ E]. apply Nat.leb_le in E. lia.
Qed.

Lemma ascii_not_dotted c d : (code c < 128)%nat -> is_dotted_I c d = false.
Proof.
  intros H. unfold is_dotted_I.
  replace (code c =? 196)%nat with false; [reflexivity|].
  symmetry. apply Nat.eqb_neq. lia.
Qed.

Lemma ascii_not_kelvin c d e : (code c < 128)%nat -> is_kelvin c d e = false.
Proof.
  intros H. unfold is_kelvin.
  replace (code c =? 226)%nat with false; [reflexivity|].
  symmetry. apply Nat.eqb_neq. lia.
Qed.

Lemma clean_not_dotted c d r : clean_start (String d r) = true -> is_dotted_I c d = false.
Proof.
  cbn [clean_start]. intros H. apply negb_true_iff in H.
  apply orb_false_iff in H as [_ H]. unfold is_dotted_I. rewrite H.
  apply andb_false_r.
Qed.

Lemma clean_not_kelvin2 c d e r : clean_start (String d r) = true -> is_kelvin c d e = false.
Proof.
  cbn [clean_start]. intros H. apply negb_true_iff in H.
  apply orb_false_iff in H as [H _]. apply orb_false_iff in H as [H _].
  unfold is_kelvin. rewrite H. now rewrite andb_false_r.
Qed.

Lemma clean_not_kelvin3 c d e r : clean_start (String e r) = true -> is_kelvin c d e = false.
Proof.
  cbn [clean_start]. intros H. apply negb_true_iff in H.
  apply orb_false_iff in H as [H _]. apply orb_false_iff in H as [_ H].
  unfold is_kelvin. rewrite H. apply andb_false_r.
Qed.

Lemma lower_1 c : lower (String c "") = String (lower_char c) "".
Proof. reflexivity. Qed.

Lemma lower_2 c c1 :
  lower (String c (String c1 ""))
  = if is_dotted_I c c1 then String "i" dot_above
    else String (lower_char c) (String (lower_char c1) "").
Proof. cbn [lower]. destruct (is_dotted_I c c1); reflexivity. Qed.

Lemma lower_3 c c1 c2 r :
  lower (String c (String c1 (String c2 r)))
  = if is_dotted_I c c1 then String "i" (dot_above +:+ lower (String c2 r))
    else if is_kelvin c c1 c2 then String "k" (lower r)
    else String (lower_char c) (lower (String c1 (String c2 r))).
Proof. reflexivity. Qed.

(** Lower-casing goes through a concatenation whose second part does not
    start in the middle of one of the two characters seen as a whole. *)
Lemma lower_app_clean b :
  clean_start b = true ->
  forall n a, (String.length a <= n)%nat -> lower (a +:+ b) = lower a +:+ lower b.
Proof.
  intros Hb. induction n as [|n IH]; intros a Hn.
  { destruct a; [reflexivity | cbn in Hn; lia]. }
  destruct a as [|c [|c1 [|c2 a3]]]; [reflexivity| | |].
  - cbn [String.append]. rewrite lower_1.
    destruct b as [|d [|d1 b2]]; [reflexivity| |].
    + rewrite lower_2, (clean_not_dotted c d "" Hb). reflexivity.
    + rewrite lower_3, (clean_not_dotted c d _ Hb), (clean_not_kelvin2 c d d1 _ Hb).
      reflexivity.
  - cbn [String.append]. rewrite lower_2.
    destruct b as [|d b1].
    + rewrite lower_2. destruct (is_dotted_I c c1); reflexivity.
    + rewrite lower_3. destruct (is_dotted_I c c1); [reflexivity|].
      rewrite (clean_not_kelvin3 c c1 d _ Hb).
      change (String c1 (String d b1)) with (String c1 "" +:+ String d b1).
      rewrite (IH (String c1 "")) by (cbn in *; lia). reflexivity.
  - cbn [String.append]. rewrite !lower_3.
    destruct (is_dotted_I c c1).
    + change (String c2 (a3 +:+ b)) with (String c2 a3 +:+ b).
      rewrite (IH (String c2 a3)) by (cbn in *; lia).
      cbn [String.append]. do 3 f_equal.
    + destruct (is_kelvin c c1 c2).
      * rewrite (IH a3) by (cbn in *; lia). reflexivity.
      * change (String c1 (String c2 (a3 +:+ b))) with (String c1 (String c2 a3) +:+ b).
        rewrite (IH (String c1 (String c2 a3))) by (cbn in *; lia). reflexivity.
Qed.

Lemma all_ascii_cons c s :
  all_ascii (String c s) = true -> (code c < 128)%nat /\ all_ascii s = true.
Proof.
  cbn [all_ascii]. intros H. apply andb_true_iff in H as [H ?].
  apply Nat.ltb_lt in H. auto.
Qed.

(** A text whose lower case is plain ASCII neither starts nor ends inside
    one of the two characters seen as a whole. *)
Lemma lower_app_ascii b :
  forall n a, (String.length a <= n)%nat -> all_ascii (lower a) = true ->
              lower (a +:+ b) = lower a +:+ lower b.
Proof.
  induction n as [|n IH]; intros a Hn Ha.
  { destruct a; [reflexivity | cbn in Hn; lia]. }
  destruct a as [|c [|c1 [|c2 a3]]]; [reflexivity| | |].
  - rewrite lower_1 in Ha. apply all_ascii_cons in Ha as [Hc _].
    apply lower_char_ascii in Hc.
    cbn [String.append]. rewrite lower_1.
    destruct b as [|d [|d1 b2]]; [reflexivity| |].
    + now rewrite lower_2, (ascii_not_dotted c d Hc).
    + now rewrite lower_3, (ascii_not_dotted c d Hc), (ascii_not_kelvin c d d1 Hc).
  - rewrite lower_2 in Ha. cbn [String.append].
    destruct (is_dotted_I c c1) eqn:D; [discriminate Ha|].
    apply all_ascii_cons in Ha as [Hc Ha]. apply lower_char_ascii in Hc.
    rewrite lower_2, D.
    destruct b as [|d b1]; [now rewrite lower_2, D|].
    rewrite lower_3, D, (ascii_not_kelvin c c1 d Hc).
    change (String c1 (String d b1)) with (String c1 "" +:+ String d b1).
    rewrite (IH (String c1 "")) by (cbn in *; lia || exact Ha). reflexivity.
  - rewrite lower_3 in Ha. cbn [String.append]. rewrite !lower_3.
    destruct (is_dotted_I c c1); [discriminate Ha|].
    destruct (is_kelvin c c1 c2).
    + apply all_ascii_cons in Ha as [_ Ha].
      rewrite (IH a3) by (cbn in *; lia || exact Ha). reflexivity.
    + apply all_ascii_cons in Ha as [_ Ha].
      change (String c1 (String c2 (a3 +:+ b))) with (String c1 (String c2 a3) +:+ b).
      rewrite (IH (String c1 (String c2 a3))) by (cbn in *; lia || exact Ha).
      reflexivity.
Qed.

Lemma dotted_clean c d : is_dotted_I c d = true -> clean_start (String c "") = true.
Proof.
  unfold is_dotted_I. intros H. apply andb_true_iff in H as [H _].
  apply Nat.eqb_eq in H. cbn [clean_start]. now rewrite H.
Qed.

Lemma kelvin_clean c d e : is_kelvin c d e = true -> clean_start (String c "") = true.
Proof.
  unfold is_kelvin. intros H. apply andb_true_iff in H as [H _].
  apply andb_true_iff in H as [H _].
  apply Nat.eqb_eq in H. cbn [clean_start]. now rewrite H.
Qed.

Lemma ascii_clean c : (code c < 128)%nat -> clean_start (String c "") = true.
Proof.
  intros H. cbn [clean_start].
  replace (code c =? 132)%nat with false by (symmetry; apply Nat.eqb_neq; lia).
  replace (code c =? 170)%nat with false by (symmetry; apply Nat.eqb_neq; lia).
  replace (code c =? 176)%nat with false by (symmetry; apply Nat.eqb_neq; lia).
  reflexivity.
Qed.

Lemma lower_ascii_clean a : all_ascii (lower a) = true -> clean_start a = true.
Proof.
  destruct a as [|c [|c1 [|c2 a3]]]; [reflexivity| | |]; intros Ha.
  - rewrite lower_1 in Ha. apply all_ascii_cons in Ha as [Hc _].
    now apply ascii_clean, lower_char_ascii.
  - rewrite lower_2 in Ha.
    destruct (is_dotted_I c c1) eqn:D; [exact (dotted_clean c c1 D)|].
    apply all_ascii_cons in Ha as [Hc _]. now apply ascii_clean, lower_char_ascii.
  - rewrite lower_3 in Ha.
    destruct (is_dotted_I c c1) eqn:D; [exact (dotted_clean c c1 D)|].
    destruct (is_kelvin c c1 c2) eqn:K; [exact (kelvin_clean c c1 c2 K)|].
    apply all_ascii_cons in Ha as [Hc _]. now apply ascii_clean, lower_char_ascii.
Qed.

(** A piece of a text whose lower case is plain ASCII is found, in lower
    case, in the lower case of the text. *)
Lemma lower_infix pre mid post :
  all_ascii (lower mid) = true ->
  contains (lower (pre +:+ mid +:+ post)) (lower mid) = true.
Proof.
  intros Ha. destruct mid as [|c mid].
  { change (lower "") with "". rewrite contains_unfold.
    now destruct (lower (pre +:+ "" +:+ post)). }
  assert (Hc : clean_start (String c mid +:+ post) = true)
    by exact (lower_ascii_clean _ Ha).
  rewrite (lower_app_clean _ Hc _ pre (le_n _)).
  rewrite (lower_app_ascii post _ (String c mid) (le_n _) Ha).
  apply contains_skip, contains_head.
Qed.

End LowerFacts.

Section DemoFacts.

#[local] Arguments String.append !_ _ / : simpl nomatch.

(** X6.  The keyword classifier of the demo looks for its cues anywhere in
    the text and without regard to case, and the bug cues come first: a
    text that holds [404], [not found] or [broken] in any casing is a bug
    whatever surrounds the cue, feature cues included.  The casing is the
    one of [str.lower]: the Kelvin sign counts as a [k].  A text that holds
    [add], [new] or [feature] never gets the summary kept for texts
    without cue.  The kind is always [bug] or [enhancement], never an
    "irrelevant" verdict. *)
Theorem demo_classifier_cues (pre mid post content : string) :
  (In (lower mid) ["404"; "not found"; "broken"] ->
     DemoSimulation.classify_email (pre +:+ mid +:+ post)
     = ("bug", "Page not found error - needs routing fix")) /\
  (In (lower mid) ["add"; "new"; "feature"] ->
     (DemoSimulation.classify_email (pre +:+ mid +:+ post)).2
     <> "General website issue reported by client") /\
  ((DemoSimulation.classify_email content).1 = "bug" \/
   (DemoSimulation.classify_email content).1 = "enhancement").
Proof.
  split; [|split].
  - intros H. unfold DemoSimulation.classify_email.
    assert (E : contains (lower (pre +:+ mid +:+ post)) (lower mid) = true).
    { apply lower_infix. cbn [In] in H.
      destruct H as [H|[H|[H|[]]]]; rewrite <- H; reflexivity. }
    cbn [In] in H. destruct H as [H|[H|[H|[]]]]; rewrite <- H in E;
      rewrite E; now rewrite ?orb_true_r.
  - intros H. unfold DemoSimulation.classify_email.
    assert (E : contains (lower (pre +:+ mid +:+ post)) (lower mid) = true).
    { apply lower_infix. cbn [In] in H.
      destruct H as [H|[H|[H|[]]]]; rewrite <- H; reflexivity. }
    destruct (_ || _ || _); [discriminate|].
    cbn [In] in H. destruct H as [H|[H|[H|[]]]]; rewrite <- H in E;
      rewrite E; rewrite ?orb_true_r; discriminate.
  - unfold DemoSimulation.classify_email.
    destruct (_ || _ || _); [now left|]. destruct (_ || _ || _); auto.
Qed.

Lemma demo_classifier_cues_witness :
  DemoSimulation.classify_email
    ("Please add a NEW page; the old one is " +:+ "BroKen" +:+ " since Monday")
  = ("bug", "Page not found error - needs routing fix").
Proof.
  destruct (demo_classifier_cues "Please add a NEW page; the old one is " "BroKen"
              " since Monday" "") as [H _].
  apply H. right; right; left. reflexivity.
Defined.

(** X7.  The issue creation of the demo sends nothing: it reads the clock
    twice and leaves the tracker and the log of requests as they were.
    The issue it describes always has number 42, carries the three marker
    labels followed by the issue type as given, and embeds in its body
    the token it made. *)
Theorem demo_creates_nothing (hash : string -> Z) (config : Config)
    (issue_type title description repo_name : string) (w : World) :
  exists c,
    DemoSimulation.create_github_issue hash config issue_type title description
      repo_name w = (inr c, tick (tick w)) /\
    issues (tick (tick w)) = issues w /\ log (tick (tick w)) = log w /\
    issued w (tick (tick w)) = [] /\
    DemoSimulation.issue_number c = 42 /\
    DemoSimulation.issue_url c
      = "https://github.com/" +:+ GITHUB_ORG config +:+ "/" +:+ repo_name +:+ "/issues/42" /\
    DemoSimulation.d_labels (DemoSimulation.issue_data c)
      = ["amazon-q"; "client-request"; "auto-generated"; issue_type] /\
    DemoSimulation.d_title (DemoSimulation.issue_data c) = title /\
    contains (DemoSimulation.d_body (DemoSimulation.issue_data c))
             (DemoSimulation.approval_token c) = true /\
    contains (DemoSimulation.d_body (DemoSimulation.issue_data c)) description = true.
Proof.
  eexists. split;
    [cbv [DemoSimulation.create_github_issue bind now ret]; reflexivity|].
  cbn [DemoSimulation.issue_number
    DemoSimulation.issue_url DemoSimulation.issue_data DemoSimulation.d_labels
    DemoSimulation.d_title DemoSimulation.d_body DemoSimulation.approval_token].
  repeat split.
  - unfold issued. cbn [log tick]. apply drop_all.
  - contains_chain.
  - contains_chain.
Qed.

End DemoFacts.

(** ** A whole run of the workflow *)

Lemma next_number_above org repo l i :
  In i l -> in_repo org repo i = true -> i_number i < next_number org repo l.
Proof.
  unfold next_number. induction l as [|j l IH]; intros Hin Hr; [contradiction|].
  cbn [List.filter]. destruct Hin as [->|Hin].
  - rewrite Hr. cbn [List.map fold_right]. lia.
  - specialize (IH Hin Hr). destruct (in_repo org repo j); cbn [List.map fold_right]; lia.
Qed.

Lemma update_issue_fresh org repo n f l :
  (forall j, In j l -> same_issue org repo n j = false) ->
  update_issue org repo n f l = l.
Proof.
  intros H. unfold update_issue. rewrite <- (List.map_id l) at 2.
  apply List.map_ext_in. intros j Hj. now rewrite (H j Hj).
Qed.

Lemma update_issue_app org repo n f l1 l2 :
  update_issue org repo n f (l1 ++ l2)
  = update_issue org repo n f l1 ++ update_issue org repo n f l2.
Proof. apply List.map_app. Qed.

Lemma same_issue_next org repo l j :
  In j l -> same_issue org repo (next_number org repo l) j = false.
Proof.
  intros Hin. unfold same_issue.
  destruct (String.eqb (i_org j) org && String.eqb (i_repo j) repo) eqn:E;
    [|reflexivity].
  pose proof (next_number_above org repo l j Hin E). cbn [andb].
  apply Z.eqb_neq. lia.
Qed.

Lemma open_matches_app org repo token w l1 l2 :
  issues w = l1 ++ l2 ->
  open_matches org repo token w
  = ranked (relevance w token)
      (List.filter (hit org repo token true true) l1
       ++ List.filter (hit org repo token true true) l2).
Proof.
  unfold open_matches, search_items. intros ->. now rewrite List.filter_app.
Qed.

(** An issue that the search ranks above every other one heads the
    result. *)
Lemma ranked_best_first score l x :
  In x l -> (forall j, j <> x -> score j < score x) ->
  exists rest, ranked score l = x :: rest.
Proof.
  intros Hin Hbest. unfold ranked.
  induction l as [|a l IH]; [contradiction|]. cbn [fold_right].
  destruct Hin as [->|Hin].
  - destruct (fold_right (rank_insert score) [] l) as [|j l'];
      cbn [rank_insert]; [eauto|].
    replace (score j <=? score x) with true; [eauto|].
    symmetry. apply Z.leb_le.
    destruct (decide (j = x)) as [->|Hne]; [lia|].
    specialize (Hbest j Hne). lia.
  - destruct (IH Hin) as [rest ->]. cbn [rank_insert].
    destruct (decide (a = x)) as [->|Hne].
    + rewrite Z.leb_refl. eauto.
    + replace (score x <=? score a) with false; [eauto|].
      symmetry. apply Z.leb_gt. now apply Hbest.
Qed.

Section Run.

Variables (config : Config) (td : TestData) (w : World) (tag rest : string).

#[local] Abbreviation org := (GITHUB_ORG config).
#[local] Abbreviation n0 := (length (log w)).
#[local] Abbreviation chat :=
  (ChatCompletion (OPENAI_MODEL config) (classification_prompt (email_content td))).
#[local] Abbreviation reply := (strip (llm w (classification_prompt (email_content td)))).
#[local] Abbreviation the_token :=
  (token_text (clock w (ticks w)) (str_int (1000 + entropy w (draws w) mod 9000))).
#[local] Abbreviation the_body :=
  (issue_body (strip tag) (email_content td) "https://example.com" "test-account-001"
     the_token (strftime_long (clock w (S (ticks w))) +:+ " UTC")).
#[local] Abbreviation create :=
  (CreateIssue org "sa-template" (strip rest) the_body (issue_labels (strip tag))).
#[local] Abbreviation new_issue :=
  (mkIssue org "sa-template" (next_number org "sa-template" (issues w))
     (1 + Z.of_nat (length (issues w))) (strip rest) the_body
     (issue_labels (strip tag)) true []).
#[local] Abbreviation new_ref :=
  (mkIssueRef (i_number new_issue) (html_url new_issue) (i_id new_issue)).
#[local] Abbreviation mail :=
  (confirmation_mail config (client_email td) (strip rest)
     ("https://yourfunction.azurewebsites.net" +:+ "/approve?token=" +:+ the_token
        +:+ "&repo=" +:+ "sa-template")
     ("https://yourfunction.azurewebsites.net" +:+ "/reject?token=" +:+ the_token
        +:+ "&repo=" +:+ "sa-template")
     the_token (strftime_long (clock w (S (S (ticks w)))) +:+ " UTC")).
#[local] Abbreviation classified := (draw (tick (record (chat, true) w))).
#[local] Abbreviation created :=
  (set_issues (issues w ++ [new_issue]) (record (create, true) (tick classified))).
#[local] Abbreviation mailed := (record (mail, true) (tick created)).

Hypothesis answered : fault w n0 = None.
Hypothesis relevant : reply <> "neither".
Hypothesis parsed : cut ": " reply = Some (tag, rest).

Lemma process_issue_failed msg :
  fault w (S n0) = Some msg ->
  process config td w = (inr IssueFailed, record (create, false) (tick classified)).
Proof.
  intros F1. unfold process.
  erewrite bind_ok; [|apply classify_answered, answered].
  pose proof relevant as Hn. apply String.eqb_neq in Hn. rewrite Hn.
  unfold split1. rewrite parsed.
  erewrite bind_ok; [|apply generate_approval_token_run].
  erewrite bind_ok;
    [|apply (create_github_issue_fault _ _ _ _ _ _ _ _ _ msg);
      cbn [fault draw tick log record]; rewrite length_app; cbn [length];
      rewrite Nat.add_1_r; exact F1].
  reflexivity.
Qed.

Lemma process_issue_created :
  fault w (S n0) = None ->
  process config td w
  = (do email_sent <- send_confirmation_email config (client_email td) (strip rest)
         ("https://yourfunction.azurewebsites.net" +:+ "/approve?token=" +:+ the_token
            +:+ "&repo=" +:+ "sa-template")
         ("https://yourfunction.azurewebsites.net" +:+ "/reject?token=" +:+ the_token
            +:+ "&repo=" +:+ "sa-template")
         the_token ;;
     if email_sent
     then do approval_result <- simulate_approval_and_trigger_amazon_q config
                                  the_token "sa-template" ;;
          ret (Completed new_ref the_token approval_result)
     else ret EmailFailed) created.
Proof.
  intros F1. unfold process.
  erewrite bind_ok; [|apply classify_answered, answered].
  pose proof relevant as Hn. apply String.eqb_neq in Hn. rewrite Hn.
  unfold split1. rewrite parsed.
  erewrite bind_ok; [|apply generate_approval_token_run].
  erewrite bind_ok;
    [|apply (create_github_issue_answered config classified);
      cbn [fault draw tick log record]; rewrite length_app; cbn [length];
      rewrite Nat.add_1_r; exact F1].
  reflexivity.
Qed.

Lemma length_log_created : length (log created) = S (S n0).
Proof. cbn [log set_issues record tick draw]. rewrite !length_app. cbn [length]. lia. Qed.

Lemma process_email_failed msg :
  fault w (S n0) = None -> fault w (S (S n0)) = Some msg ->
  process config td w = (inr EmailFailed, record (mail, false) (tick created)).
Proof.
  intros F1 F2. rewrite (process_issue_created F1).
  erewrite bind_ok; [|apply send_confirmation_email_run]. cbv beta iota zeta.
  rewrite length_log_created. cbn [fault set_issues record tick draw].
  rewrite F2. reflexivity.
Qed.

Lemma process_mailed :
  fault w (S n0) = None -> fault w (S (S n0)) = None ->
  process config td w
  = (do approval_result <- simulate_approval_and_trigger_amazon_q config
                             the_token "sa-template" ;;
     ret (Completed new_ref the_token approval_result)) mailed.
Proof.
  intros F1 F2. rewrite (process_issue_created F1).
  erewrite bind_ok; [|apply send_confirmation_email_run]. cbv beta iota zeta.
  rewrite length_log_created. cbn [fault set_issues record tick draw].
  rewrite F2. reflexivity.
Qed.

Lemma length_log_mailed : length (log mailed) = S (S (S n0)).
Proof. cbn [log set_issues record tick draw]. rewrite !length_app. cbn [length]. lia. Qed.

Lemma new_issue_hit : hit org "sa-template" the_token true true new_issue = true.
Proof.
  unfold hit, in_repo. cbn [i_org i_repo i_body i_open i_title].
  rewrite !String.eqb_refl.
  destruct (issue_body_contents (strip tag) (email_content td) "https://example.com"
              "test-account-001" the_token
              (strftime_long (clock w (S (ticks w))) +:+ " UTC")) as [-> _].
  reflexivity.
Qed.

Lemma open_matches_mailed :
  open_matches org "sa-template" the_token mailed
  = ranked (relevance w the_token)
      (List.filter (hit org "sa-template" the_token true true) (issues w)
       ++ [new_issue]).
Proof.
  rewrite (open_matches_app _ _ _ mailed (issues w) [new_issue]) by reflexivity.
  cbn [List.filter]. now rewrite new_issue_hit.
Qed.

Lemma open_matches_mailed_fresh :
  open_matches org "sa-template" the_token w = [] ->
  open_matches org "sa-template" the_token mailed = [new_issue].
Proof.
  intros H. rewrite open_matches_mailed.
  apply ranked_nil_inv in H. now rewrite H.
Qed.

Lemma open_matches_mailed_best old :
  In old (open_matches org "sa-template" the_token w) ->
  (forall j, j <> old -> relevance w the_token j < relevance w the_token old) ->
  exists more, open_matches org "sa-template" the_token mailed = old :: more.
Proof.
  intros Hin Hbest. rewrite open_matches_mailed.
  apply ranked_best_first; [|exact Hbest].
  apply in_or_app. left. unfold open_matches, search_items in Hin.
  now apply ranked_In in Hin.
Qed.

End Run.

(** X8.  A run of the workflow never ends in an exception, whatever the
    services answer: every failure of a request is turned into an outcome. *)
Theorem process_never_raises (config : Config) (td : TestData) (w : World) :
  exists out, fst (process config td w) = inr out.
Proof.
  destruct (fault w (length (log w))) as [msg|] eqn:H0.
  { destruct (process_skipped config td w) as [ok E];
      [now rewrite (classify_fault _ _ _ msg H0)|]. rewrite E. eauto. }
  destruct (string_dec (strip (llm w (classification_prompt (email_content td))))
                       "neither") as [E|Hn].
  { destruct (process_skipped config td w) as [ok E'];
      [rewrite (classify_answered _ _ _ H0); cbn [fst]; now rewrite E|].
    rewrite E'. eauto. }
  destruct (cut ": " (strip (llm w (classification_prompt (email_content td)))))
    as [[tag rest]|] eqn:Hc.
  - destruct (process_classified config td w tag rest H0 Hn Hc)
      as (out & w' & _ & _ & E & _). rewrite E. eauto.
  - rewrite (process_invalid_format config td w H0 Hn Hc). eauto.
Qed.

Section Outcomes.

Variables (config : Config) (td : TestData) (w : World) (tag rest : string).

#[local] Abbreviation org := (GITHUB_ORG config).
#[local] Abbreviation n0 := (length (log w)).
#[local] Abbreviation chat :=
  (ChatCompletion (OPENAI_MODEL config) (classification_prompt (email_content td))).
#[local] Abbreviation reply := (strip (llm w (classification_prompt (email_content td)))).
#[local] Abbreviation the_token :=
  (token_text (clock w (ticks w)) (str_int (1000 + entropy w (draws w) mod 9000))).
#[local] Abbreviation after := (snd (process config td w)).

Hypothesis answered : fault w n0 = None.
Hypothesis relevant : reply <> "neither".
Hypothesis parsed : cut ": " reply = Some (tag, rest).

(** X9.  When the request that creates the issue fails, the run stops
    with the outcome [IssueFailed]: the tracker is unchanged, and after the
    classification and the failed creation no mail, search, label update
    or comment is requested. *)
Theorem issue_failure_stops_the_run (msg : string) :
  fault w (S n0) = Some msg ->
  fst (process config td w) = inr IssueFailed /\
  issues after = issues w /\
  exists body,
    issued w after
    = [(chat, true);
       (CreateIssue org "sa-template" (strip rest) body (issue_labels (strip tag)),
        false)].
Proof.
  intros F1.
  rewrite (process_issue_failed config td w tag rest answered relevant parsed msg F1).
  cbn [fst snd]. split; [reflexivity|]. split; [reflexivity|].
  eexists. apply issued_app. cbn [log record tick draw].
  now rewrite <- app_assoc.
Qed.

(** X10.  When the mail cannot be sent after the issue was created, the
    run stops with the outcome [EmailFailed] and nothing is rolled back:
    the new issue stays in the tracker, open, without comment, with its
    creation labels and the token in its body, and no step of the approval
    is requested. *)
Theorem mail_failure_leaves_issue_pending (msg : string) :
  fault w (S n0) = None -> fault w (S (S n0)) = Some msg ->
  fst (process config td w) = inr EmailFailed /\
  exists new subject text html,
    issues after = issues w ++ [new] /\
    i_title new = strip rest /\
    i_labels new = issue_labels (strip tag) /\
    i_open new = true /\ i_comments new = [] /\
    contains (i_body new) the_token = true /\
    issued w after
    = [(chat, true);
       (CreateIssue org "sa-template" (strip rest) (i_body new)
          (issue_labels (strip tag)), true);
       (MailSend (client_email td) (EMAIL_FROM config) subject text html false false,
        false)].
Proof.
  intros F1 F2.
  rewrite (process_email_failed config td w tag rest answered relevant parsed
             msg F1 F2).
  cbn [fst snd]. split; [reflexivity|].
  do 4 eexists. split; [reflexivity|].
  cbn [i_title i_labels i_open i_comments i_body].
  repeat (split; [reflexivity|]).
  split; [apply issue_body_contents|].
  apply issued_app. cbn [log record tick draw set_issues].
  now rewrite <- !app_assoc.
Qed.

(** X11.  When the six requests of a run are answered and no open issue
    of the repository already holds the token, the approval lands on the
    issue the run has just created: the outcome reports that issue as
    approved, the tracker gains exactly that issue, now carrying the five
    approval labels and one comment that mentions the agent, and the
    requests issued are, in this order, the classification, the creation,
    the mail, the search for the token, the label update and the comment. *)
Theorem run_approves_the_issue_it_created :
  fault w (S n0) = None -> fault w (S (S n0)) = None ->
  fault w (S (S (S n0))) = None -> fault w (S (S (S (S n0)))) = None ->
  fault w (S (S (S (S (S n0))))) = None ->
  open_matches org "sa-template" the_token w = [] ->
  exists ref new body note mail,
    fst (process config td w)
      = inr (Completed ref the_token (ApprovalOk (Number ref) (Url ref))) /\
    issues after = issues w ++ [new] /\
    i_number new = Number ref /\ html_url new = Url ref /\
    i_title new = strip rest /\ i_body new = body /\
    contains body the_token = true /\
    i_labels new = approved_labels /\ i_open new = true /\
    i_comments new = [note] /\ contains note "@amazon-q" = true /\
    issued w after
    = [(chat, true);
       (CreateIssue org "sa-template" (strip rest) body (issue_labels (strip tag)),
        true);
       (mail, true);
       (SearchIssues org "sa-template" the_token true true, true);
       (UpdateIssue org "sa-template" (Number ref) approved_labels, true);
       (CreateComment org "sa-template" (Number ref) note, true)] /\
    is_side_effect mail = true /\ is_update mail = false /\ is_comment mail = false.
Proof.
  intros F1 F2 F3 F4 F5 Hnone.
  rewrite (process_mailed config td w tag rest answered relevant parsed F1 F2).
  set (w3 := record _ (tick _)).
  assert (L3 : length (log w3) = S (S (S n0)))
    by apply (length_log_mailed config td w tag rest).
  pose proof (open_matches_mailed_fresh config td w tag rest Hnone) as M3.
  fold w3 in M3.
  erewrite bind_ok;
    [|eapply (approval_done config the_token "sa-template" w3);
      [rewrite L3; exact F3 | exact M3 | rewrite L3; exact F4 | rewrite L3; exact F5]].
  cbn [ret fst snd issues set_issues]. subst w3.
  cbn [issues set_issues record tick draw i_number].
  rewrite !update_issue_app.
  rewrite !(update_issue_fresh _ _ _ _ (issues w))
    by (intros j Hj; now apply same_issue_next).
  unfold update_issue, same_issue.
  repeat (progress (cbn [List.map andb set_labels add_comment i_org i_repo i_number
                         i_id i_title i_body i_labels i_open i_comments app];
                    rewrite ?String.eqb_refl, ?Z.eqb_refl)).
  set (ref := mkIssueRef _ _ _). exists ref. do 4 eexists.
  split; [reflexivity|]. split; [reflexivity|].
  subst ref. cbn [i_number i_title i_body i_labels i_open i_comments Number Url].
  do 4 (split; [reflexivity|]).
  split; [apply issue_body_contents|].
  do 3 (split; [reflexivity|]).
  split; [apply comment_body_mentions_agent|].
  split.
  - apply issued_app. cbn [log record tick draw set_issues].
    now rewrite <- !app_assoc.
  - repeat split.
Qed.

(** X12.  The run does not approve the issue it created as such: it
    approves the first item of the search for its token.  When an open
    issue of the repository already holds the token of the run and the
    tracker ranks it above every other issue, the approval goes to that
    older issue, and the issue the run created keeps its creation labels
    and gets no comment. *)
Theorem run_approves_an_older_match (old : Issue) :
  fault w (S n0) = None -> fault w (S (S n0)) = None ->
  fault w (S (S (S n0))) = None -> fault w (S (S (S (S n0)))) = None ->
  fault w (S (S (S (S (S n0))))) = None ->
  In old (open_matches org "sa-template" the_token w) ->
  (forall j, j <> old -> relevance w the_token j < relevance w the_token old) ->
  exists ref new,
    fst (process config td w)
      = inr (Completed ref the_token (ApprovalOk (i_number old) (html_url old))) /\
    i_number old <> Number ref /\
    In new (issues after) /\
    i_number new = Number ref /\ in_repo org "sa-template" new = true /\
    i_labels new = issue_labels (strip tag) /\ i_open new = true /\
    i_comments new = [].
Proof.
  intros F1 F2 F3 F4 F5 Hold Hbest.
  rewrite (process_mailed config td w tag rest answered relevant parsed F1 F2).
  set (w3 := record _ (tick _)).
  assert (L3 : length (log w3) = S (S (S n0)))
    by apply (length_log_mailed config td w tag rest).
  destruct (open_matches_mailed_best config td w tag rest old Hold Hbest)
    as [more M3].
  fold w3 in M3.
  apply open_matches_iff in Hold as (Hin & Hrepo & _).
  pose proof (next_number_above org "sa-template" (issues w) old Hin Hrepo) as Hlt.
  erewrite bind_ok;
    [|eapply (approval_done config the_token "sa-template" w3);
      [rewrite L3; exact F3 | exact M3 | rewrite L3; exact F4 | rewrite L3; exact F5]].
  cbn [ret fst snd issues set_issues]. subst w3.
  cbn [issues set_issues record tick draw].
  do 2 eexists. split; [reflexivity|]. cbn [Number].
  split; [cbn [i_number]; lia|].
  split.
  - apply update_issue_other; [apply update_issue_other|].
    + apply in_or_app. right. left. reflexivity.
    + unfold same_issue. cbn [i_org i_repo i_number].
      rewrite !String.eqb_refl. cbn [andb]. apply Z.eqb_neq. lia.
    + unfold same_issue. cbn [i_org i_repo i_number].
      rewrite !String.eqb_refl. cbn [andb]. apply Z.eqb_neq. lia.
  - cbn [i_number i_labels i_open i_comments]. unfold in_repo.
    cbn [i_org i_repo]. rewrite !String.eqb_refl. repeat split.
Qed.

(** X13.  A failure of the approval does not stop the run: when the
    search for the token fails, the run still ends [Completed], carrying
    the failure of the approval, and the new issue stays as it was
    created. *)
Theorem approval_failure_is_reported_in_outcome (msg : string) :
  fault w (S n0) = None -> fault w (S (S n0)) = None ->
  fault w (S (S (S n0))) = Some msg ->
  exists ref new,
    fst (process config td w)
      = inr (Completed ref the_token (ApprovalFailed msg)) /\
    issues after = issues w ++ [new] /\
    i_number new = Number ref /\
    i_labels new = issue_labels (strip tag) /\ i_open new = true /\
    i_comments new = [].
Proof.
  intros F1 F2 F3.
  rewrite (process_mailed config td w tag rest answered relevant parsed F1 F2).
  set (w3 := record _ (tick _)).
  assert (L3 : length (log w3) = S (S (S n0)))
    by apply (length_log_mailed config td w tag rest).
  erewrite bind_ok;
    [|apply (approval_search_fault config the_token "sa-template" w3 msg);
      rewrite L3; exact F3].
  cbn [ret fst snd]. subst w3. do 2 eexists. split; [reflexivity|].
  cbn [issues set_issues record tick draw]. split; [reflexivity|].
  repeat split.
Qed.

End Outcomes.

Lemma issue_failure_stops_the_run_witness :
  fst (main Samples.cfg (Fixtures.fails_at 1 "bug: Contact page returns 404"))
    = inr IssueFailed /\
  issues (snd (main Samples.cfg (Fixtures.fails_at 1 "bug: Contact page returns 404")))
    = [].
Proof.
  destruct (issue_failure_stops_the_run Samples.cfg test_data
              (Fixtures.fails_at 1 "bug: Contact page returns 404")
              "bug" "Contact page returns 404" eq_refl
              ltac:(vm_compute; discriminate) ltac:(vm_compute; reflexivity)
              "500 Server Error" eq_refl) as (H1 & H2 & _).
  split; [exact H1 | exact H2].
Defined.

Lemma mail_failure_leaves_issue_pending_witness :
  fst (main Samples.cfg (Fixtures.fails_at 2 "bug: Contact page returns 404"))
    = inr EmailFailed /\
  List.map i_labels
    (issues (snd (main Samples.cfg (Fixtures.fails_at 2 "bug: Contact page returns 404"))))
    = [["amazon-q"; "client-request"; "auto-generated"; "bug"]].
Proof.
  destruct (mail_failure_leaves_issue_pending Samples.cfg test_data
              (Fixtures.fails_at 2 "bug: Contact page returns 404")
              "bug" "Contact page returns 404" eq_refl
              ltac:(vm_compute; discriminate) ltac:(vm_compute; reflexivity)
              "500 Server Error" eq_refl eq_refl)
    as (H1 & new & s & t & h & H2 & _ & H3 & _).
  split; [exact H1|]. unfold main. rewrite H2.
  change (issues (Fixtures.fails_at 2 _)) with (@nil Issue).
  cbn [app List.map]. rewrite H3. reflexivity.
Defined.

Lemma run_approves_the_issue_it_created_witness :
  exists ref,
    fst (main Samples.cfg (Samples.quiet "bug: Contact page returns 404"))
      = inr (Completed ref Samples.tok (ApprovalOk (Number ref) (Url ref))).
Proof.
  destruct (run_approves_the_issue_it_created Samples.cfg test_data
              (Samples.quiet "bug: Contact page returns 404")
              "bug" "Contact page returns 404" eq_refl
              ltac:(vm_compute; discriminate) ltac:(vm_compute; reflexivity)
              eq_refl eq_refl eq_refl eq_refl eq_refl eq_refl)
    as (ref & new & body & note & mail & H & _).
  exists ref. exact H.
Defined.

Lemma colliding_ranks_old reply j :
  j <> Samples.pending 7 ->
  relevance (Fixtures.colliding reply) Samples.tok j
  < relevance (Fixtures.colliding reply) Samples.tok (Samples.pending 7).
Proof.
  intros Hj. cbn [relevance Fixtures.colliding].
  rewrite (bool_decide_eq_false_2 _ Hj), (bool_decide_eq_true_2 _ eq_refl). lia.
Qed.

Lemma run_approves_an_older_match_witness :
  exists ref,
    fst (main Samples.cfg (Fixtures.colliding "bug: Contact page returns 404"))
      = inr (Completed ref Samples.tok
               (ApprovalOk 7 (html_url (Samples.pending 7)))) /\
    7 <> Number ref.
Proof.
  destruct (run_approves_an_older_match Samples.cfg test_data
              (Fixtures.colliding "bug: Contact page returns 404")
              "bug" "Contact page returns 404" eq_refl
              ltac:(vm_compute; discriminate) ltac:(vm_compute; reflexivity)
              (Samples.pending 7) eq_refl eq_refl eq_refl eq_refl eq_refl
              ltac:(vm_compute; left; reflexivity)
              (colliding_ranks_old "bug: Contact page returns 404"))
    as (ref & new & H & Hne & _).
  exists ref. split; [exact H | exact Hne].
Defined.

Lemma approval_failure_is_reported_in_outcome_witness :
  exists ref,
    fst (main Samples.cfg (Fixtures.fails_at 3 "bug: Contact page returns 404"))
      = inr (Completed ref Samples.tok (ApprovalFailed "500 Server Error")).
Proof.
  destruct (approval_failure_is_reported_in_outcome Samples.cfg test_data
              (Fixtures.fails_at 3 "bug: Contact page returns 404")
              "bug" "Contact page returns 404" eq_refl
              ltac:(vm_compute; discriminate) ltac:(vm_compute; reflexivity)
              "500 Server Error" eq_refl eq_refl eq_refl)
    as (ref & new & H & _).
  exists ref. exact H.
Defined.

(** ** More on the approval step *)

(** X14.  The approval step does not roll back: when the label update
    succeeded and the comment fails, the step reports the failure, yet the
    issue keeps the five approval labels it was given, with its comments
    as they were. *)
Theorem comment_failure_keeps_approval_labels (config : Config)
    (approval_token repository : string) (w : World) (i i0 : Issue)
    (rest : list Issue) (msg : string) :
  fault w (length (log w)) = None ->
  open_matches (GITHUB_ORG config) repository approval_token w = i :: rest ->
  fault w (S (length (log w))) = None ->
  fault w (S (S (length (log w)))) = Some msg ->
  find_issue (GITHUB_ORG config) repository (i_number i) (issues w) = Some i0 ->
  let run := simulate_approval_and_trigger_amazon_q config approval_token
               repository w in
  fst run = inr (ApprovalFailed msg) /\
  find_issue (GITHUB_ORG config) repository (i_number i) (issues (snd run))
    = Some (set_labels approved_labels i0) /\
  i_labels (set_labels approved_labels i0) = approved_labels /\
  i_comments (set_labels approved_labels i0) = i_comments i0.
Proof.
  intros H0 E H1 H2 Hi. cbv zeta.
  rewrite (approval_comment_fault _ _ _ _ i rest msg H0 E H1 H2).
  cbn [fst snd issues record tick set_issues].
  rewrite lookup_relabel, Hi. repeat split.
Qed.

Lemma comment_failure_keeps_approval_labels_witness :
  fst (simulate_approval_and_trigger_amazon_q Samples.cfg Samples.tok "sa-template"
         Fixtures.comment_fails)
    = inr (ApprovalFailed "502 Bad Gateway").
Proof.
  apply (comment_failure_keeps_approval_labels Samples.cfg Samples.tok "sa-template"
           Fixtures.comment_fails (Samples.pending 7) (Samples.pending 7) []
           "502 Bad Gateway"
           eq_refl ltac:(vm_compute; reflexivity) eq_refl eq_refl eq_refl).
Defined.

Lemma identity_update_issue org repo n f l :
  (forall i, issue_identity (f i) = issue_identity i) ->
  List.map issue_identity (update_issue org repo n f l) = List.map issue_identity l.
Proof.
  intros Hf. unfold update_issue. rewrite List.map_map.
  apply List.map_ext. intros i. destruct (same_issue org repo n i); [apply Hf | reflexivity].
Qed.

Lemma update_issue_outside org repo n f l j :
  In j l -> in_repo org repo j = false -> In j (update_issue org repo n f l).
Proof.
  intros Hin Hr. apply update_issue_other; [exact Hin|].
  unfold same_issue. unfold in_repo in Hr. now rewrite Hr.
Qed.

(** X15.  Whatever the tracker answers, the approval step neither creates
    nor removes nor closes nor rewrites an issue: the issues keep their
    order, repository, number, title, body and state; it draws no random
    number, reads the clock at most once, and leaves every issue of
    another repository exactly as it was. *)
Theorem approval_preserves_issues (config : Config)
    (approval_token repository : string) (w : World) :
  let w' := snd (simulate_approval_and_trigger_amazon_q config approval_token
                   repository w) in
  List.map issue_identity (issues w') = List.map issue_identity (issues w) /\
  draws w' = draws w /\
  (ticks w' = ticks w \/ ticks w' = S (ticks w)) /\
  (forall j, In j (issues w) -> in_repo (GITHUB_ORG config) repository j = false ->
             In j (issues w')).
Proof.
  cbv zeta.
  destruct (fault w (length (log w))) as [msg|] eqn:H0.
  { rewrite (approval_search_fault _ _ _ _ msg H0). cbn. auto. }
  destruct (open_matches (GITHUB_ORG config) repository approval_token w)
    as [|i rest] eqn:E.
  { rewrite (approval_not_found _ _ _ _ H0 E). cbn. auto. }
  destruct (fault w (S (length (log w)))) as [msg|] eqn:H1.
  { rewrite (approval_update_fault _ _ _ _ i rest msg H0 E H1). cbn. auto. }
  destruct (fault w (S (S (length (log w))))) as [msg|] eqn:H2.
  - rewrite (approval_comment_fault _ _ _ _ i rest msg H0 E H1 H2).
    cbn [snd issues draws ticks record tick set_issues].
    rewrite identity_update_issue by reflexivity.
    repeat split; auto using update_issue_outside.
  - rewrite (approval_done _ _ _ _ i rest H0 E H1 H2).
    cbn [snd issues draws ticks record tick set_issues].
    rewrite !identity_update_issue by reflexivity.
    repeat split; auto using update_issue_outside.
Qed.

(** ** More on tokens and labels *)

Lemma stamp_inj d1 d2 :
  valid_datetime d1 -> valid_datetime d2 -> stamp d1 = stamp d2 -> d1 = d2.
Proof.
  destruct d1 as [y1 m1 a1 h1 n1 s1], d2 as [y2 m2 a2 h2 n2 s2].
  unfold valid_datetime, stamp. cbn [year month day hour minute second].
  intros V1 V2 E.
  assert (y1 = y2) by lia. assert (m1 = m2) by lia. assert (a1 = a2) by lia.
  assert (h1 = h2) by lia. assert (n1 = n2) by lia. assert (s1 = s2) by lia.
  congruence.
Qed.

(** X16.  Nothing but the second of the clock reading and the drawn
    suffix tells two tokens apart: two generated tokens are equal exactly
    when they were made in the same second with draws that agree modulo
    9000.  No registry of issued tokens is consulted. *)
Theorem tokens_equal_iff_same_second_and_draw (w1 w2 : World) (t1 t2 : string) :
  valid_datetime (clock w1 (ticks w1)) -> valid_datetime (clock w2 (ticks w2)) ->
  fst (generate_approval_token w1) = inr t1 ->
  fst (generate_approval_token w2) = inr t2 ->
  (t1 = t2 <->
   clock w1 (ticks w1) = clock w2 (ticks w2) /\
   entropy w1 (draws w1) mod 9000 = entropy w2 (draws w2) mod 9000).
Proof.
  intros V1 V2. rewrite !generate_approval_token_run. cbn [fst].
  intros [= <-] [= <-]. split.
  - intros E.
    pose proof (f_equal token_timestamp E) as Ets.
    pose proof (f_equal token_suffix E) as Esf.
    rewrite !token_text_timestamp in Ets by assumption.
    rewrite !token_text_suffix in Esf by assumption.
    split.
    + apply stamp_inj; try assumption.
      destruct (strftime_compact_shape _ V1) as (_ & _ & <-).
      destruct (strftime_compact_shape _ V2) as (_ & _ & <-).
      now rewrite Ets.
    + destruct (random_suffix_shape (entropy w1 (draws w1))) as (_ & _ & D1 & _).
      destruct (random_suffix_shape (entropy w2 (draws w2))) as (_ & _ & D2 & _).
      cbv zeta in D1, D2. rewrite Esf, D2 in D1. lia.
  - intros [-> E]. now rewrite E.
Qed.

Lemma tokens_equal_iff_same_second_and_draw_witness :
  fst (generate_approval_token (Samples.quiet ""))
  = fst (generate_approval_token Fixtures.later_draw).
Proof.
  destruct (tokens_equal_iff_same_second_and_draw (Samples.quiet "")
              Fixtures.later_draw Samples.tok Samples.tok) as [_ H];
    [unfold valid_datetime; simpl; lia | unfold valid_datetime; simpl; lia
    | reflexivity | reflexivity | reflexivity].
Defined.

(** X17.  The labels of a new issue are the three markers followed by at
    most one kind label, without repetition; they depend on the issue type
    only up to case, carry [bug] exactly when the body carries the
    instructions to fix, and never include [approved] or [amazon-q-ready]:
    no reply of the classifier creates an issue that is already approved. *)
Theorem issue_labels_shape (issue_type other : string) :
  NoDup (issue_labels issue_type) /\
  (exists kind, issue_labels issue_type
                = ["amazon-q"; "client-request"; "auto-generated"] ++ kind /\
                (kind = [] \/ kind = ["bug"] \/ kind = ["enhancement"])) /\
  (lower issue_type = lower other -> issue_labels issue_type = issue_labels other) /\
  (In "bug" (issue_labels issue_type) <->
   ai_instructions issue_type
   = "Fix the described issue in the website code. Identify the root cause and implement a solution.") /\
  ~ In "approved" (issue_labels issue_type) /\
  ~ In "amazon-q-ready" (issue_labels issue_type).
Proof.
  unfold issue_labels, ai_instructions.
  split; [|split; [|split; [now intros ->|]]].
  - destruct (String.eqb (lower issue_type) "bug");
      [|destruct (String.eqb (lower issue_type) "feature")];
      cbn [app]; apply (bool_decide_unpack _); vm_compute; reflexivity.
  - destruct (String.eqb (lower issue_type) "bug");
      [|destruct (String.eqb (lower issue_type) "feature")]; eauto.
  - destruct (String.eqb (lower issue_type) "bug");
      [|destruct (String.eqb (lower issue_type) "feature")]; cbn [app In];
      (split;
       [split;
        [first [intros _; reflexivity
               |intros H; exfalso;
                repeat (destruct H as [H|H]; [discriminate H|]); exact H]
        |intros H; first [discriminate H | do 3 right; left; reflexivity]]
       |split; intros H;
        repeat (destruct H as [H|H]; [discriminate H|]); exact H]).
Qed.

Lemma issue_labels_shape_witness :
  issue_labels "BUG" = issue_labels "Bug".
Proof.
  destruct (issue_labels_shape "BUG" "Bug") as (_ & _ & H & _).
  apply H. reflexivity.
Defined.

(** ** Links *)

Section LinkFacts.

#[local] Arguments String.append !_ _ / : simpl nomatch.

Lemma prefix_app_cancel a n r :
  String.prefix (a +:+ n) (a +:+ r) = String.prefix n r.
Proof.
  induction a as [|c a IH]; [reflexivity|]. simpl.
  destruct (ascii_dec c c) as [_|Hne]; [exact IH | congruence].
Qed.

Lemma contains_of_prefix hay needle :
  String.prefix needle hay = true -> contains hay needle = true.
Proof. intros H. now rewrite contains_unfold, H. Qed.

End LinkFacts.

Ltac contains_link :=
  repeat first
    [ solve [apply contains_of_prefix; rewrite ?prefix_app_cancel; apply prefix_app]
    | apply contains_skip ].

(** X18.  Once the issue of a run is created, the third request of the run
    is the approval mail, addressed to the client of the email: its two
    representations both carry the approve link and the reject link, each
    made of the fixed base address, the path [/approve] or [/reject], the
    token of the run and the repository, and the token in the links is the
    one embedded in the body of the issue. *)
Theorem run_mails_links_with_the_run_token (config : Config) (td : TestData)
    (w : World) (tag rest : string) :
  fault w (length (log w)) = None ->
  strip (llm w (classification_prompt (email_content td))) <> "neither" ->
  cut ": " (strip (llm w (classification_prompt (email_content td))))
    = Some (tag, rest) ->
  fault w (S (length (log w))) = None ->
  let token := token_text (clock w (ticks w))
                 (str_int (1000 + entropy w (draws w) mod 9000)) in
  let approve_link := "https://yourfunction.azurewebsites.net" +:+ "/approve?token="
                      +:+ token +:+ "&repo=" +:+ "sa-template" in
  let reject_link := "https://yourfunction.azurewebsites.net" +:+ "/reject?token="
                     +:+ token +:+ "&repo=" +:+ "sa-template" in
  let after := snd (process config td w) in
  exists body subject text html ok,
    issued w after !! 1%nat
      = Some (CreateIssue (GITHUB_ORG config) "sa-template" (strip rest) body
                (issue_labels (strip tag)), true) /\
    contains body token = true /\
    issued w after !! 2%nat
      = Some (MailSend (client_email td) (EMAIL_FROM config) subject text html
                false false, ok) /\
    contains text approve_link = true /\ contains text reject_link = true /\
    contains html approve_link = true /\ contains html reject_link = true /\
    contains subject token = true.
Proof.
  intros H0 Hn Hc F1. cbv zeta.
  assert (T : exists ok seg,
             issued w (snd (process config td w))
             = (ChatCompletion (OPENAI_MODEL config)
                  (classification_prompt (email_content td)), true)
               :: (CreateIssue (GITHUB_ORG config) "sa-template" (strip rest)
                     (issue_body (strip tag) (email_content td) "https://example.com"
                        "test-account-001"
                        (token_text (clock w (ticks w))
                           (str_int (1000 + entropy w (draws w) mod 9000)))
                        (strftime_long (clock w (S (ticks w))) +:+ " UTC"))
                     (issue_labels (strip tag)), true)
               :: (confirmation_mail config (client_email td) (strip rest)
                     ("https://yourfunction.azurewebsites.net" +:+ "/approve?token="
                      +:+ token_text (clock w (ticks w))
                            (str_int (1000 + entropy w (draws w) mod 9000))
                      +:+ "&repo=" +:+ "sa-template")
                     ("https://yourfunction.azurewebsites.net" +:+ "/reject?token="
                      +:+ token_text (clock w (ticks w))
                            (str_int (1000 + entropy w (draws w) mod 9000))
                      +:+ "&repo=" +:+ "sa-template")
                     (token_text (clock w (ticks w))
                        (str_int (1000 + entropy w (draws w) mod 9000)))
                     (strftime_long (clock w (S (S (ticks w)))) +:+ " UTC"), ok)
               :: seg).
  { destruct (fault w (S (S (length (log w))))) as [msg|] eqn:F2.
    - rewrite (process_email_failed config td w tag rest H0 Hn Hc msg F1 F2).
      exists false, []. apply issued_app.
      cbn [snd log record tick draw set_issues]. now rewrite <- !app_assoc.
    - rewrite (process_mailed config td w tag rest H0 Hn Hc F1 F2).
      set (w3 := record _ (tick _)).
      destruct (approval_frame config
                  (token_text (clock w (ticks w))
                     (str_int (1000 + entropy w (draws w) mod 9000)))
                  "sa-template" w3) as (r & w' & seg & Er & _ & Lr).
      erewrite bind_ok; [|exact Er]. exists true, seg. apply issued_app.
      cbn [snd ret]. rewrite Lr. subst w3.
      cbn [log record tick draw set_issues]. now rewrite <- !app_assoc. }
  destruct T as (ok & seg & ->). unfold confirmation_mail.
  do 5 eexists. split; [reflexivity|].
  split; [apply issue_body_contents|].
  split; [reflexivity|].
  unfold text_content, html_content. repeat split; contains_chain.
Qed.

Lemma run_mails_links_with_the_run_token_witness :
  exists subject text html ok,
    issued (Samples.quiet "bug: Contact page returns 404")
           (snd (main Samples.cfg (Samples.quiet "bug: Contact page returns 404")))
      !! 2%nat
    = Some (MailSend "john@datan8.com" "noreply@datan8.com" subject text html
              false false, ok) /\
    contains text
      "https://yourfunction.azurewebsites.net/approve?token=APPR-20240307090501-7456&repo=sa-template"
    = true.
Proof.
  destruct (run_mails_links_with_the_run_token Samples.cfg test_data
              (Samples.quiet "bug: Contact page returns 404")
              "bug" "Contact page returns 404" eq_refl
              ltac:(vm_compute; discriminate) ltac:(vm_compute; reflexivity) eq_refl)
    as (body & subject & text & html & ok & _ & _ & H & Ha & _).
  exists subject, text, html, ok. split; [exact H | exact Ha].
Defined.

(** X19.  The mail preview of the demo carries an approve link and a
    reject link built from the same base address, token and repository,
    the base being the setting [APPROVAL_BASE_URL] when present and the
    fixed default otherwise; nothing is sent and the report is always a
    success. *)
Theorem demo_preview_links (approval_base_url : option string)
    (client_email issue_summary token repo_name : string) (w : World) :
  let base := match approval_base_url with
              | Some u => u
              | None => "https://yourfunction.azurewebsites.net"
              end in
  exists preview,
    DemoSimulation.send_approval_email approval_base_url client_email issue_summary
      token repo_name w = (inr (true, preview), w) /\
    contains preview
      (base +:+ "/approve?token=" +:+ token +:+ "&repo=" +:+ repo_name) = true /\
    contains preview
      (base +:+ "/reject?token=" +:+ token +:+ "&repo=" +:+ repo_name) = true /\
    contains preview token = true /\
    contains preview issue_summary = true.
Proof.
  cbv zeta. eexists. split; [reflexivity|].
  unfold DemoSimulation.email_preview, DemoSimulation.approval_base.
  repeat split; try solve [contains_chain]; contains_link.
Qed.
